(** * Startup orchestration of the server (src/otserv.cpp)

    The file embeds [main], [mainLoader], [loadModules], [modulesLoadHelper]
    and [startupErrorMessage] of otserv.cpp as programs over the operations
    they perform on the process (worker threads, the loader condition
    variable, the service manager, the file system, the opaque loaders), gives
    those operations a semantics on an explicit process state, and proves the
    startup properties of the specification about them.

    Every call into a collaborator that lives outside otserv.cpp (config
    manager, database, Lua, loaders, service manager, workers) is an operation
    whose result is supplied by an environment [Env]; the theorems quantify
    over all environments. *)

From Stdlib Require Import ZArith Ascii String List Bool Lia.
From stdpp Require Import base option list strings gmap pretty.
Import ListNotations.

Local Open Scope string_scope.
Local Open Scope Z_scope.

(** ** Data of the process *)

(** The two threads that take part in the startup: the one running [main]
    and the one of [g_dispatcher], which runs the submitted tasks. *)
Inductive tid : Type := MainThread | DispatcherThread.

Definition tid_eqb (a b : tid) : bool :=
  match a, b with
  | MainThread, MainThread | DispatcherThread, DispatcherThread => true
  | _, _ => false
  end.

(** The three worker objects of lines 50-52. *)
Inductive worker : Type := G_dispatcher | G_scheduler | G_databaseTasks.

Inductive wstate : Type := Stopped | Running | Draining.

Inductive WorldType_t : Type :=
  WORLD_TYPE_NO_PVP | WORLD_TYPE_PVP | WORLD_TYPE_PVP_ENFORCED.

Inductive RentPeriod_t : Type :=
  RENTPERIOD_DAILY | RENTPERIOD_WEEKLY | RENTPERIOD_MONTHLY
| RENTPERIOD_YEARLY | RENTPERIOD_NEVER.

Inductive GameState_t : Type :=
  GAME_STATE_STARTUP | GAME_STATE_INIT | GAME_STATE_NORMAL.

Inductive protocol : Type := ProtocolGame | ProtocolLogin | ProtocolStatus.

Inductive level : Type := LDebug | LInfo | LWarn | LError.

(** Keys read through [g_configManager()]. *)
Inductive string_key : Type :=
  CLIENT_VERSION_STR | SERVER_NAME | DEFAULT_PRIORITY | WORLD_TYPE
| MAP_NAME | MAP_CUSTOM_NAME | HOUSE_RENT_PERIOD | DISCORD_WEBHOOK_URL.

Inductive bool_key : Type := OPTIMIZE_DATABASE | TOGGLE_MAP_CUSTOM.

Inductive number_key : Type := GAME_PORT | LOGIN_PORT | STATUS_PORT.

(** The loaders whose success flag the pipeline inspects.  Each constructor
    is one call expression of the source; its value is the boolean the source
    tests ([== ERROR_NONE] and [== 0] included, and for [RsaLoadPEM] the
    absence of an exception). *)
Inductive stage : Type :=
| ConfigLoad                      (* g_configManager().load() *)
| RsaLoadPEM (file : string)      (* g_RSA.loadPEM(file) did not throw *)
| DatabaseConnect                 (* Database::getInstance().connect() *)
| IsDatabaseSetup                 (* DatabaseManager::isDatabaseSetup() *)
| OptimizeTables                  (* DatabaseManager::optimizeTables() *)
| ItemsLoadFromOtb (file : string)
| ItemsLoadFromXml
| LoadScriptSystems
| LuaLoadFile (file : string)
| LoadScripts (dir : string) (isLib reload : bool)
| VocationsLoadFromXml
| LoadScheduleEventFromXml
| OutfitsLoadFromXml
| FamiliarsLoadFromXml
| ImbuementsLoadFromXml
| ModulesLoadFromXml
| EventsLoadFromXml
| LoadMainMap (name : string)
| LoadCustomMap (name : string).

(** A stage is mandatory when the source answers its failure with
    [startupErrorMessage]; [optimizeTables] is the only inspected call whose
    failure is only logged (lines 198-201). *)
Definition mandatory (s : stage) : bool :=
  match s with
  | OptimizeTables => false
  | _ => true
  end.

(** Calls whose result the source ignores and whose effect lies outside the
    state modelled here. *)
Inductive extern : Type :=
| SpdlogSetPattern (pattern : string)
| DisableCloseButton              (* body of toggleForceCloseButton on Windows *)
| SetNewHandler                   (* std::set_new_handler(badAllocationHandler) *)
| Srand
| SetConsoleTitle (title : string)
| NewScripts | NewModules | NewEvents | NewImbuements
| UpdateDatabase
| LoadBoostedCreature
| SetPriorityClassHigh | SetPriorityClassAboveNormal
| CheckExpiredOffers
| UpdateStatistics
| GameStart
| WebhookInit
| WebhookSendMessage (title message url : string).

Inductive task : Type := MainLoaderTask.

(** ** Operations *)

Inductive op : Type :=
| Log (l : level) (msg : string)          (* SPDLOG_INFO / WARN / ERROR / DEBUG *)
| NotifyAll                               (* g_loaderSignal.notify_all() *)
| Wait                                    (* g_loaderSignal.wait(g_loaderUniqueLock) *)
| GetChar                                 (* getchar() *)
| Exit (code : Z)                         (* exit(code) *)
| Start (w : worker)
| Shutdown (w : worker)
| Join (w : worker)
| AddTask (t : task)                      (* g_dispatcher.addTask(createTask(...)) *)
| IsRunning                               (* serviceManager.is_running() *)
| ServiceRun                              (* serviceManager.run() *)
| ServiceAdd (p : protocol) (port : Z)    (* services->add<P>(port) *)
| Call (s : stage)
| ExceptionWhat                           (* e.what() in the handler of line 174 *)
| GetString (k : string_key)
| GetBoolean (k : bool_key)
| GetNumber (k : number_key)
| DatabaseClientVersion                   (* Database::getClientVersion() *)
| IsRootUser                              (* getuid() == 0 || geteuid() == 0 *)
| IfstreamOpen (path : string)            (* std::ifstream f(path); f.is_open() *)
| OfstreamOpen (path : string)            (* std::ofstream f(path); f is open or not *)
| StreamCopy (src dst : string) (dst_open : bool)
                                          (* dst << src.rdbuf(), dst open or not *)
| StreamClose (path : string)
| SetGameState (g : GameState_t)
| SetWorldType (t : WorldType_t)
| PayHouses (r : RentPeriod_t)
| Extern (e : extern).

(** The type of the value an operation hands back to the program. *)
Definition ret_type (o : op) : Type :=
  match o with
  | Exit _ => Empty_set
  | IsRunning | ServiceAdd _ _ | Call _ | GetBoolean _ | IsRootUser
  | IfstreamOpen _ | OfstreamOpen _ => bool
  | ExceptionWhat | GetString _ | DatabaseClientVersion => string
  | GetNumber _ => Z
  | _ => unit
  end.

(** ** Programs *)

(** A program is a finite tree of operations; the continuation receives the
    result of the operation. *)
Inductive prog (A : Type) : Type :=
| Ret (a : A)
| Do (o : op) (k : ret_type o -> prog A).

Arguments Ret {A} a.
Arguments Do {A} o k.

Fixpoint bind {A B : Type} (p : prog A) (f : A -> prog B) : prog B :=
  match p with
  | Ret a => f a
  | Do o k => Do o (fun x => bind (k x) f)
  end.

Declare Scope prog_scope.
Delimit Scope prog_scope with prog.
Bind Scope prog_scope with prog.

Notation "x <- p ;; q" := (bind p (fun x => q))
  (at level 100, p at next level, right associativity) : prog_scope.
Notation "p ;; q" := (bind p (fun _ => q))
  (at level 100, right associativity) : prog_scope.

Local Open Scope prog_scope.

Definition skip : prog unit := Ret tt.

(** Operations returning [unit]. *)
Definition log (l : level) (msg : string) : prog unit := Do (Log l msg) Ret.
Definition notify_all : prog unit := Do NotifyAll Ret.
Definition wait : prog unit := Do Wait Ret.
Definition getchar : prog unit := Do GetChar Ret.
Definition start (w : worker) : prog unit := Do (Start w) Ret.
Definition shutdown (w : worker) : prog unit := Do (Shutdown w) Ret.
Definition join (w : worker) : prog unit := Do (Join w) Ret.
Definition addTask (t : task) : prog unit := Do (AddTask t) Ret.
Definition serviceRun : prog unit := Do ServiceRun Ret.
Definition streamCopy (src dst : string) (dst_open : bool) : prog unit :=
  Do (StreamCopy src dst dst_open) Ret.
Definition streamClose (path : string) : prog unit := Do (StreamClose path) Ret.
Definition setGameState (g : GameState_t) : prog unit := Do (SetGameState g) Ret.
Definition setWorldType (t : WorldType_t) : prog unit := Do (SetWorldType t) Ret.
Definition payHouses (r : RentPeriod_t) : prog unit := Do (PayHouses r) Ret.
Definition ext (e : extern) : prog unit := Do (Extern e) Ret.

(** Operations returning a value. *)
Definition is_running : prog bool := Do IsRunning Ret.
Definition serviceAdd (p : protocol) (port : Z) : prog bool := Do (ServiceAdd p port) Ret.
Definition call (s : stage) : prog bool := Do (Call s) Ret.
Definition exceptionWhat : prog string := Do ExceptionWhat Ret.
Definition getString (k : string_key) : prog string := Do (GetString k) Ret.
Definition getBoolean (k : bool_key) : prog bool := Do (GetBoolean k) Ret.
Definition getNumber (k : number_key) : prog Z := Do (GetNumber k) Ret.
Definition databaseClientVersion : prog string := Do DatabaseClientVersion Ret.
Definition isRootUser : prog bool := Do IsRootUser Ret.
Definition ifstreamOpen (path : string) : prog bool := Do (IfstreamOpen path) Ret.
Definition ofstreamOpen (path : string) : prog bool := Do (OfstreamOpen path) Ret.

(** [exit] has no result to continue with: whatever follows it in a program
    is never reached. *)
Definition exit {A : Type} (code : Z) : prog A :=
  Do (Exit code) (fun x : Empty_set => match x with end).

(** Statement guarded by a condition, [if (b) { p }]. *)
Definition when (b : bool) (p : prog unit) : prog unit :=
  if b then p else skip.

(** ** Strings *)

Definition is_upper (c : ascii) : bool :=
  (65 <=? nat_of_ascii c)%nat && (nat_of_ascii c <=? 90)%nat.

Definition is_lower (c : ascii) : bool :=
  (97 <=? nat_of_ascii c)%nat && (nat_of_ascii c <=? 122)%nat.

Definition tolower (c : ascii) : ascii :=
  if is_upper c then ascii_of_nat (nat_of_ascii c + 32) else c.

Definition toupper (c : ascii) : ascii :=
  if is_lower c then ascii_of_nat (nat_of_ascii c - 32) else c.

Fixpoint map_string (f : ascii -> ascii) (s : string) : string :=
  match s with
  | EmptyString => EmptyString
  | String c s' => String (f c) (map_string f s')
  end.

(** Modelled from the spec: [asLowerCaseString] and [asUpperCaseString] are
    helpers of the repository declared outside otserv.cpp.  They are taken to
    do what their names and the case-insensitive reading of the world type
    say: every ASCII upper-case (resp. lower-case) letter is replaced with its
    lower-case (resp. upper-case) letter and every other character is kept. *)
Definition asLowerCaseString (s : string) : string := map_string tolower s.
Definition asUpperCaseString (s : string) : string := map_string toupper s.

(** [strcasecmp(a, b) == 0] *)
Definition strcasecmp_is0 (a b : string) : bool :=
  String.eqb (asLowerCaseString a) (asLowerCaseString b).

Definition newline : string := String (ascii_of_nat 10) EmptyString.

(** [std::to_string] on the non-negative version macros. *)
Definition to_string (n : N) : string := pretty n.

(** ** Build configuration *)

(** The preprocessor symbols that otserv.cpp tests or prints. *)
Inductive Compiler : Type :=
| Clang (major minor patchlevel : N)
| MSC (ver : N)
| GNUC (major minor patchlevel : N)
| OtherCompiler.

Inductive Platform : Type := Amd64 | I386 | Arm | OtherPlatform.

Record Build : Type := {
  OS_WINDOWS : bool;
  WIN32 : bool;
  DEBUG_LOG : bool;
  compiler : Compiler;
  cplusplus : Z;
  platform : Platform;
  STATUS_SERVER_NAME : string;
  STATUS_SERVER_VERSION : string;
  STATUS_SERVER_DEVELOPERS : string;
  GIT_RETRIEVED_STATE : bool;
  GIT_COMMIT_DATE_ISO8601 : string;
  GIT_IS_DIRTY : bool;
  LUAJIT_VERSION : option string;
  DATE : string;
  TIME : string
}.

(** ** The functions of otserv.cpp *)

Section Source.

Variable build : Build.

(** Lines 75-81. *)
Definition toggleForceCloseButton : prog unit :=
  when (OS_WINDOWS build) (ext DisableCloseButton).

(** Lines 83-94. *)
Definition getCompiler : string :=
  match compiler build with
  | Clang major minor patchlevel =>
      "Clang++ " ++ to_string major ++ "." ++ to_string minor ++ "."
        ++ to_string patchlevel ++ ""
  | MSC ver => "Microsoft Visual Studio " ++ to_string ver ++ ""
  | GNUC major minor patchlevel =>
      "G++ " ++ to_string major ++ "." ++ to_string minor ++ "."
        ++ to_string patchlevel ++ ""
  | OtherCompiler => "unknown"
  end.

(** Lines 96-117. *)
Definition getCppVersion : string :=
  if 201703 <? cplusplus build then "C++20 or higher"
  else if cplusplus build =? 201703 then "C++17"
  else if cplusplus build =? 201402 then "C++14"
  else if cplusplus build =? 201103 then "C++11"
  else if cplusplus build =? 199711 then "C++98"
  else "C++ unknown".

(** Lines 119-130. *)
Definition getPlatform : string :=
  match platform build with
  | Amd64 => "x64"
  | I386 => "x86"
  | Arm => "ARM"
  | OtherPlatform => "unknown"
  end.

(** Lines 132-137. *)
Definition startupErrorMessage : prog unit :=
  log LError "The program will close after pressing the enter key..." ;;
  notify_all ;;
  getchar ;;
  exit (-1).

(** Lines 141-147. *)
Definition badAllocationHandler : prog unit :=
  log LError ("Allocation failed, server out of memory, "
              ++ "decrease the size of your map or compile in 64 bits mode") ;;
  getchar ;;
  exit (-1).

(** Lines 149-154. *)
Definition initGlobalScopes : prog unit :=
  ext NewScripts ;;
  ext NewModules ;;
  ext NewEvents ;;
  ext NewImbuements.

(** Lines 156-162. *)
Definition modulesLoadHelper (loaded : bool) (moduleName : string) : prog unit :=
  log LInfo ("Loading " ++ moduleName) ;;
  when (negb loaded)
    (log LError ("Cannot load: " ++ moduleName) ;;
     startupErrorMessage).

(** Lines 164-244.  The argument of [modulesLoadHelper] is evaluated before
    the helper is entered, so each loader runs before its "Loading" line. *)
Definition loadModules : prog unit :=
  (loaded <- call ConfigLoad ;;
   modulesLoadHelper loaded "config.lua") ;;

  (v <- getString CLIENT_VERSION_STR ;;
   log LInfo ("Server protocol: " ++ v)) ;;

  (* set RSA key *)
  (ok <- call (RsaLoadPEM "key.pem") ;;
   when (negb ok)
     ((what <- exceptionWhat ;; log LError what) ;;
      startupErrorMessage)) ;;

  (* Database *)
  log LInfo "Establishing database connection... " ;;
  (connected <- call DatabaseConnect ;;
   when (negb connected)
     (log LError "Failed to connect to database!" ;;
      startupErrorMessage)) ;;
  (v <- databaseClientVersion ;;
   log LInfo ("MySQL Version: " ++ v)) ;;

  (* Run database manager *)
  log LInfo "Running database manager..." ;;
  (setup <- call IsDatabaseSetup ;;
   when (negb setup)
     (log LError ("The database you have specified in config.lua is empty, "
                  ++ "please import the schema.sql to your database.") ;;
      startupErrorMessage)) ;;

  start G_databaseTasks ;;
  ext UpdateDatabase ;;

  (optimize <- getBoolean OPTIMIZE_DATABASE ;;
   when optimize
     (optimized <- call OptimizeTables ;;
      when (negb optimized) (log LInfo "No tables were optimized"))) ;;

  (loaded <- call (ItemsLoadFromOtb "data/items/items.otb") ;;
   modulesLoadHelper loaded "items.otb") ;;
  (loaded <- call ItemsLoadFromXml ;;
   modulesLoadHelper loaded "items.xml") ;;
  (loaded <- call LoadScriptSystems ;;
   modulesLoadHelper loaded "script systems") ;;

  (* Lua Env *)
  (loaded <- call (LuaLoadFile "data/global.lua") ;;
   modulesLoadHelper loaded "data/global.lua") ;;
  (loaded <- call (LuaLoadFile "data/stages.lua") ;;
   modulesLoadHelper loaded "data/stages.lua") ;;
  (loaded <- call (LuaLoadFile "data/startup/startup.lua") ;;
   modulesLoadHelper loaded "data/startup/startup.lua") ;;
  (loaded <- call (LuaLoadFile "data/npclib/load.lua") ;;
   modulesLoadHelper loaded "data/npclib/load.lua") ;;

  (loaded <- call (LoadScripts "scripts/lib" true false) ;;
   modulesLoadHelper loaded "data/scripts/libs") ;;
  (loaded <- call VocationsLoadFromXml ;;
   modulesLoadHelper loaded "data/XML/vocations.xml") ;;
  (loaded <- call LoadScheduleEventFromXml ;;
   modulesLoadHelper loaded "data/XML/events.xml") ;;
  (loaded <- call OutfitsLoadFromXml ;;
   modulesLoadHelper loaded "data/XML/outfits.xml") ;;
  (loaded <- call FamiliarsLoadFromXml ;;
   modulesLoadHelper loaded "data/XML/familiars.xml") ;;
  (loaded <- call ImbuementsLoadFromXml ;;
   modulesLoadHelper loaded "data/XML/imbuements.xml") ;;
  (loaded <- call ModulesLoadFromXml ;;
   modulesLoadHelper loaded "data/modules/modules.xml") ;;
  (loaded <- call EventsLoadFromXml ;;
   modulesLoadHelper loaded "data/events/events.xml") ;;
  (loaded <- call (LoadScripts "scripts" false false) ;;
   modulesLoadHelper loaded "data/scripts") ;;
  (loaded <- call (LoadScripts "monster" false false) ;;
   modulesLoadHelper loaded "data/monster") ;;
  (loaded <- call (LoadScripts "npclua" false false) ;;
   modulesLoadHelper loaded "data/npclua") ;;

  ext LoadBoostedCreature.

(** Lines 248-266 of [main]: everything up to the submission of the loader.
    [serviceManager] is the object of line 260; its set of services is part
    of the process state. *)
Definition main_startup : prog unit :=
  (if DEBUG_LOG build then
     log LDebug "[CANARY] SPDLOG LOG DEBUG ENABLED" ;;
     ext (SpdlogSetPattern
            "[%Y-%d-%m %H:%M:%S.%e] [file %@] [func %!] [thread %t] [%^%l%$] %v ")
   else
     ext (SpdlogSetPattern "[%Y-%d-%m %H:%M:%S.%e] [%^%l%$] %v ")) ;;
  (* Toggle force close button enabled/disabled *)
  toggleForceCloseButton ;;
  (* Setup bad allocation handler *)
  ext SetNewHandler ;;

  start G_dispatcher ;;
  start G_scheduler ;;

  addTask MainLoaderTask.

(** Lines 270-284 of [main]: what the main thread does once it is woken. *)
Definition main_decide : prog Z :=
  (running <- is_running ;;
   if running then
     (name <- getString SERVER_NAME ;;
      log LInfo (name ++ " " ++ "server online!")) ;;
     serviceRun
   else
     log LError "No services running. The server is NOT online!" ;;
     shutdown G_databaseTasks ;;
     shutdown G_dispatcher ;;
     exit (-1)) ;;

  join G_scheduler ;;
  join G_databaseTasks ;;
  join G_dispatcher ;;
  Ret 0.

(** Lines 247-285. *)
Definition main : prog Z :=
  main_startup ;;
  wait ;;
  main_decide.

(** Lines 290-321 of [mainLoader]: game state, seed, console title, banner. *)
Definition mainLoader_banner : prog unit :=
  (* dispatcher thread *)
  setGameState GAME_STATE_STARTUP ;;
  ext Srand ;;
  when (WIN32 build) (ext (SetConsoleTitle (STATUS_SERVER_NAME build))) ;;
  (if GIT_RETRIEVED_STATE build then
     log LInfo (STATUS_SERVER_NAME build ++ " - Version ["
                ++ STATUS_SERVER_VERSION build ++ "] dated ["
                ++ GIT_COMMIT_DATE_ISO8601 build ++ "]") ;;
     when (GIT_IS_DIRTY build) (log LWarn "DIRTY - NOT OFFICIAL RELEASE")
   else
     log LInfo (STATUS_SERVER_NAME build ++ " - Version "
                ++ STATUS_SERVER_VERSION build)) ;;
  (* Increment compiller information *)
  log LInfo ("Compiled with " ++ getCompiler ++ ", linked with standard "
             ++ getCppVersion) ;;
  (* Increment platform information *)
  log LInfo ("Compiled on " ++ DATE build ++ " " ++ TIME build
             ++ " for platform " ++ getPlatform ++ newline) ;;
  match LUAJIT_VERSION build with
  | Some v => log LInfo ("Linked with " ++ v ++ " for Lua support")
  | None => skip
  end ;;
  log LInfo ("A server developed by: " ++ STATUS_SERVER_DEVELOPERS build) ;;
  log LInfo ("Visit our website for updates, support, and resources: "
             ++ "https://docs.opentibiabr.org/").

(** Lines 323-336: check if config.lua or config.lua.dist exist.  A stream
    object is the boolean [is_open()] answers for it: [c_test] and
    [config_lua_dist] are tested by the source, [config_lua] is not, and
    [<<] writes through it only if it is open. *)
Definition mainLoader_copyConfig : prog unit :=
  c_test <- ifstreamOpen "./config.lua" ;;
  if negb c_test then
    config_lua_dist <- ifstreamOpen "./config.lua.dist" ;;
    when config_lua_dist
      (log LInfo "Copying config.lua.dist to config.lua" ;;
       config_lua <- ofstreamOpen "config.lua" ;;
       streamCopy "./config.lua.dist" "config.lua" config_lua ;;
       streamClose "config.lua" ;;
       streamClose "./config.lua.dist")
  else
    streamClose "./config.lua".

(** Lines 342-349. *)
Definition mainLoader_priority : prog unit :=
  when (WIN32 build)
    (defaultPriority <- getString DEFAULT_PRIORITY ;;
     if strcasecmp_is0 defaultPriority "high" then
       ext SetPriorityClassHigh
     else if strcasecmp_is0 defaultPriority "above-normal" then
       ext SetPriorityClassAboveNormal
     else skip).

(** Lines 351-364. *)
Definition mainLoader_worldType : prog unit :=
  worldType <- (s <- getString WORLD_TYPE ;; Ret (asLowerCaseString s)) ;;
  (if String.eqb worldType "pvp" then
     setWorldType WORLD_TYPE_PVP
   else if String.eqb worldType "no-pvp" then
     setWorldType WORLD_TYPE_NO_PVP
   else if String.eqb worldType "pvp-enforced" then
     setWorldType WORLD_TYPE_PVP_ENFORCED
   else
     (s <- getString WORLD_TYPE ;;
      log LError ("Unknown world type: " ++ s ++ ", valid world types are: pvp, no-pvp "
                  ++ "and pvp-enforced")) ;;
     startupErrorMessage) ;;
  log LInfo ("World type set as " ++ asUpperCaseString worldType).

(** Lines 366-379. *)
Definition mainLoader_map : prog unit :=
  log LInfo "Loading map..." ;;
  (loaded <- (name <- getString MAP_NAME ;; call (LoadMainMap name)) ;;
   when (negb loaded)
     (log LError "Failed to load map" ;;
      startupErrorMessage)) ;;
  (* If "mapCustomEnabled" is true on config.lua, then load the custom map *)
  custom <- getBoolean TOGGLE_MAP_CUSTOM ;;
  when custom
    (log LInfo "Loading custom map..." ;;
     loaded <- (name <- getString MAP_CUSTOM_NAME ;; call (LoadCustomMap name)) ;;
     when (negb loaded)
       (log LError "Failed to load custom map" ;;
        startupErrorMessage)).

(** [static_cast<uint16_t>] *)
Definition to_uint16 (n : Z) : Z := n mod 65536.

(** Lines 384-388: the value [services->add] returns is not used. *)
Definition mainLoader_services : prog unit :=
  (* Game client protocols *)
  (port <- getNumber GAME_PORT ;; _ <- serviceAdd ProtocolGame (to_uint16 port) ;; skip) ;;
  (port <- getNumber LOGIN_PORT ;; _ <- serviceAdd ProtocolLogin (to_uint16 port) ;; skip) ;;
  (* OT protocols *)
  (port <- getNumber STATUS_PORT ;; _ <- serviceAdd ProtocolStatus (to_uint16 port) ;; skip).

(** Lines 390-403: the value of [rentPeriod] for a lower-cased setting. *)
Definition rentPeriod_of (strRentPeriod : string) : RentPeriod_t :=
  if String.eqb strRentPeriod "yearly" then RENTPERIOD_YEARLY
  else if String.eqb strRentPeriod "weekly" then RENTPERIOD_WEEKLY
  else if String.eqb strRentPeriod "monthly" then RENTPERIOD_MONTHLY
  else if String.eqb strRentPeriod "daily" then RENTPERIOD_DAILY
  else RENTPERIOD_NEVER.

(** Lines 390-405. *)
Definition mainLoader_rent : prog unit :=
  strRentPeriod <- (s <- getString HOUSE_RENT_PERIOD ;; Ret (asLowerCaseString s)) ;;
  let rentPeriod := rentPeriod_of strRentPeriod in
  payHouses rentPeriod.

(** Lines 412-418. *)
Definition mainLoader_rootWarning : prog unit :=
  when (negb (WIN32 build))
    (root <- isRootUser ;;
     when root
       (log LWarn (STATUS_SERVER_NAME build ++ " has been executed as root user, "
                   ++ "please consider running it as a normal user"))).

(** Lines 288-429.  The parameter [services] of the source is the
    [serviceManager] of [main], the only service manager of the process. *)
Definition mainLoader : prog unit :=
  mainLoader_banner ;;
  mainLoader_copyConfig ;;

  (* Init and load modules *)
  initGlobalScopes ;;
  loadModules ;;

  mainLoader_priority ;;
  mainLoader_worldType ;;
  mainLoader_map ;;

  log LInfo "Initializing gamestate..." ;;
  setGameState GAME_STATE_INIT ;;

  mainLoader_services ;;
  mainLoader_rent ;;

  ext CheckExpiredOffers ;;
  ext UpdateStatistics ;;

  log LInfo "Loaded all modules, server starting up..." ;;

  mainLoader_rootWarning ;;

  ext GameStart ;;
  setGameState GAME_STATE_NORMAL ;;

  ext WebhookInit ;;

  (url <- getString DISCORD_WEBHOOK_URL ;;
   ext (WebhookSendMessage "Server is now online" "Server has successfully started." url)) ;;

  notify_all.

(** The body of a task of the dispatcher. *)
Definition task_body (t : task) : prog unit :=
  match t with
  | MainLoaderTask => mainLoader
  end.

End Source.

(** ** The environment of the process *)

(** What the collaborators of otserv.cpp answer.  A theorem that holds for
    every [Env] holds whatever the configuration, the database, the data
    files and the network do. *)
Record Env : Type := {
  stage_ok : stage -> bool;
  exception_what : string;
  cfg_string : string_key -> string;
  cfg_boolean : bool_key -> bool;
  cfg_number : number_key -> Z;
  client_version : string;
  root_user : bool;
  (** whether [add] manages to bind the listener, given the services bound
      so far *)
  bind_ok : list (protocol * Z) -> protocol -> Z -> bool;
  (** what the operating system lets the process do with a file of the
      working directory: open an existing file for reading, open an existing
      file for writing, create a file that does not exist *)
  can_read : string -> bool;
  can_write : string -> bool;
  can_create : string -> bool
}.

(** ** The state of the process *)

Record World : Type := {
  files : gmap string string;          (* the working directory *)
  services : list (protocol * Z);      (* listeners registered in serviceManager *)
  g_dispatcher : wstate;
  g_scheduler : wstate;
  g_databaseTasks : wstate;
  gameState : option GameState_t;
  worldType : option WorldType_t;
  rentPeriod : option RentPeriod_t;    (* argument of the last payHouses *)
  queue : list task;                   (* tasks submitted to g_dispatcher *)
  waiters : list tid;                  (* threads blocked in g_loaderSignal.wait *)
  exit_code : option Z;                (* set once exit has been called *)
  trace : list (tid * op)              (* operations performed, newest first *)
}.

Definition set_files (x : gmap string string) (w : World) : World :=
  {| files := x; services := services w; g_dispatcher := g_dispatcher w;
     g_scheduler := g_scheduler w; g_databaseTasks := g_databaseTasks w;
     gameState := gameState w; worldType := worldType w;
     rentPeriod := rentPeriod w; queue := queue w; waiters := waiters w;
     exit_code := exit_code w; trace := trace w |}.

Definition set_services (x : list (protocol * Z)) (w : World) : World :=
  {| files := files w; services := x; g_dispatcher := g_dispatcher w;
     g_scheduler := g_scheduler w; g_databaseTasks := g_databaseTasks w;
     gameState := gameState w; worldType := worldType w;
     rentPeriod := rentPeriod w; queue := queue w; waiters := waiters w;
     exit_code := exit_code w; trace := trace w |}.

Definition worker_state (k : worker) (w : World) : wstate :=
  match k with
  | G_dispatcher => g_dispatcher w
  | G_scheduler => g_scheduler w
  | G_databaseTasks => g_databaseTasks w
  end.

Definition set_worker (k : worker) (x : wstate) (w : World) : World :=
  {| files := files w; services := services w;
     g_dispatcher := match k with G_dispatcher => x | _ => g_dispatcher w end;
     g_scheduler := match k with G_scheduler => x | _ => g_scheduler w end;
     g_databaseTasks := match k with G_databaseTasks => x | _ => g_databaseTasks w end;
     gameState := gameState w; worldType := worldType w;
     rentPeriod := rentPeriod w; queue := queue w; waiters := waiters w;
     exit_code := exit_code w; trace := trace w |}.

Definition set_gameState (x : option GameState_t) (w : World) : World :=
  {| files := files w; services := services w; g_dispatcher := g_dispatcher w;
     g_scheduler := g_scheduler w; g_databaseTasks := g_databaseTasks w;
     gameState := x; worldType := worldType w;
     rentPeriod := rentPeriod w; queue := queue w; waiters := waiters w;
     exit_code := exit_code w; trace := trace w |}.

Definition set_worldType (x : option WorldType_t) (w : World) : World :=
  {| files := files w; services := services w; g_dispatcher := g_dispatcher w;
     g_scheduler := g_scheduler w; g_databaseTasks := g_databaseTasks w;
     gameState := gameState w; worldType := x;
     rentPeriod := rentPeriod w; queue := queue w; waiters := waiters w;
     exit_code := exit_code w; trace := trace w |}.

Definition set_rentPeriod (x : option RentPeriod_t) (w : World) : World :=
  {| files := files w; services := services w; g_dispatcher := g_dispatcher w;
     g_scheduler := g_scheduler w; g_databaseTasks := g_databaseTasks w;
     gameState := gameState w; worldType := worldType w;
     rentPeriod := x; queue := queue w; waiters := waiters w;
     exit_code := exit_code w; trace := trace w |}.

Definition set_queue (x : list task) (w : World) : World :=
  {| files := files w; services := services w; g_dispatcher := g_dispatcher w;
     g_scheduler := g_scheduler w; g_databaseTasks := g_databaseTasks w;
     gameState := gameState w; worldType := worldType w;
     rentPeriod := rentPeriod w; queue := x; waiters := waiters w;
     exit_code := exit_code w; trace := trace w |}.

Definition set_waiters (x : list tid) (w : World) : World :=
  {| files := files w; services := services w; g_dispatcher := g_dispatcher w;
     g_scheduler := g_scheduler w; g_databaseTasks := g_databaseTasks w;
     gameState := gameState w; worldType := worldType w;
     rentPeriod := rentPeriod w; queue := queue w; waiters := x;
     exit_code := exit_code w; trace := trace w |}.

Definition set_exit_code (x : option Z) (w : World) : World :=
  {| files := files w; services := services w; g_dispatcher := g_dispatcher w;
     g_scheduler := g_scheduler w; g_databaseTasks := g_databaseTasks w;
     gameState := gameState w; worldType := worldType w;
     rentPeriod := rentPeriod w; queue := queue w; waiters := waiters w;
     exit_code := x; trace := trace w |}.

Definition set_trace (x : list (tid * op)) (w : World) : World :=
  {| files := files w; services := services w; g_dispatcher := g_dispatcher w;
     g_scheduler := g_scheduler w; g_databaseTasks := g_databaseTasks w;
     gameState := gameState w; worldType := worldType w;
     rentPeriod := rentPeriod w; queue := queue w; waiters := waiters w;
     exit_code := exit_code w; trace := x |}.

(** The process as the operating system hands it to [main]: the working
    directory holds [fs], the globals of lines 50-66 are constructed, nothing
    has run. *)
Definition boot (fs : gmap string string) : World :=
  {| files := fs; services := []; g_dispatcher := Stopped;
     g_scheduler := Stopped; g_databaseTasks := Stopped;
     gameState := None; worldType := None; rentPeriod := None;
     queue := []; waiters := []; exit_code := None; trace := [] |}.

(** ** Collaborators modelled from the specification *)

(** Modelled from the spec: the worker classes (Dispatcher, Scheduler,
    DatabaseTasks) are declared outside otserv.cpp.  Section 4.1: [start]
    takes a worker from Stopped to Running, [requestShutdown] from Running to
    Draining, [join] from Draining to Stopped.  In any other state the call
    leaves the state as it is. *)
Definition worker_start (s : wstate) : wstate :=
  match s with Stopped => Running | _ => s end.
Definition worker_shutdown (s : wstate) : wstate :=
  match s with Running => Draining | _ => s end.
Definition worker_join (s : wstate) : wstate :=
  match s with Draining => Stopped | _ => s end.

(** Modelled from the spec: [Dispatcher::addTask] is declared outside
    otserv.cpp.  Section 4.1: [submit] enqueues the task, and has no effect
    when the worker is not Running. *)
Definition worker_submit (s : wstate) (t : task) (q : list task) : list task :=
  match s with Running => q ++ [t] | _ => q end.

(** Modelled from the spec: [ServiceManager] is declared outside otserv.cpp.
    Section 4.2: [add] registers the listener when the bind succeeds and does
    not add it otherwise; [isRunning] holds iff at least one listener is
    registered. *)
Definition service_add (bound : bool) (p : protocol) (port : Z)
    (l : list (protocol * Z)) : list (protocol * Z) :=
  if bound then l ++ [(p, port)] else l.

Definition service_is_running (l : list (protocol * Z)) : bool :=
  match l with [] => false | _ :: _ => true end.

(** ** The file system *)

(** "./name" and "name" are the same file of the working directory. *)
Definition normalize (path : string) : string :=
  match path with
  | String "."%char (String "/"%char rest) => rest
  | _ => path
  end.

(** [std::ifstream f(path); f.is_open()]: the stream is open when the file
    exists and the process may read it. *)
Definition ifstream_is_open (e : Env) (path : string) (fs : gmap string string)
    : bool :=
  match fs !! normalize path with
  | Some _ => can_read e (normalize path)
  | None => false
  end.

(** [std::ofstream f(path); f.is_open()]: the stream is open when the file
    exists and the process may write it, or does not exist and the process may
    create it. *)
Definition ofstream_is_open (e : Env) (path : string) (fs : gmap string string)
    : bool :=
  match fs !! normalize path with
  | Some _ => can_write e (normalize path)
  | None => can_create e (normalize path)
  end.

(** What opening [std::ofstream f(path)] does to the file when it succeeds:
    the file is created, or truncated. *)
Definition fs_truncate (path : string) (fs : gmap string string)
    : gmap string string :=
  <[normalize path := ""]> fs.

(** [dst << src.rdbuf()]: everything in [src] is written after what [dst]
    holds. *)
Definition fs_copy (src dst : string) (fs : gmap string string) : gmap string string :=
  match fs !! normalize src, fs !! normalize dst with
  | Some from, Some to => <[normalize dst := to ++ from]> fs
  | _, _ => fs
  end.

(** ** Semantics of the operations *)

(** What an operation answers to the thread that performs it: a result to go
    on with, a result to go on with once the thread is woken, or nothing
    because the process is gone. *)
Inductive reply (X : Type) : Type :=
| Next (x : X)
| Park (x : X)
| Halt.

Arguments Next {X} x.
Arguments Park {X} x.
Arguments Halt {X}.

(** How a thread left to itself ends up. *)
Inductive outcome (A : Type) : Type :=
| Returned (a : A)          (* the function returned [a] *)
| Parked (k : prog A)       (* blocked in wait, [k] is what remains to do *)
| Exited.                   (* the process exited *)

Arguments Returned {A} a.
Arguments Parked {A} k.
Arguments Exited {A}.

Section Semantics.

Variable env : Env.

(** [g_loaderSignal] is a bare [std::condition_variable]: [wait] puts the
    caller among the waiters and [notify_all] releases the threads waiting at
    that moment and records nothing.  The wake-ups without a notification
    that the C++ standard allows are no operation of a thread: they are
    events of the schedule, see [sys_event] below.

    The streams follow the standard library: a stream that failed to open
    reads and writes nothing.  What a collaborator does to the files of the
    working directory is outside the model; the statements on files below
    are about the state in which the copy of lines 323-336 ends, before any
    collaborator has been called. *)
Definition effect (t : tid) (o : op) (w : World) : reply (ret_type o) * World :=
  match o return reply (ret_type o) * World with
  | Log _ _ => (Next tt, w)
  | NotifyAll => (Next tt, set_waiters [] w)
  | Wait => (Park tt, set_waiters (t :: waiters w) w)
  | GetChar => (Next tt, w)
  | Exit code => (Halt, set_exit_code (Some code) w)
  | Start k => (Next tt, set_worker k (worker_start (worker_state k w)) w)
  | Shutdown k => (Next tt, set_worker k (worker_shutdown (worker_state k w)) w)
  | Join k => (Next tt, set_worker k (worker_join (worker_state k w)) w)
  | AddTask k => (Next tt, set_queue (worker_submit (g_dispatcher w) k (queue w)) w)
  | IsRunning => (Next (service_is_running (services w)), w)
  | ServiceRun => (Next tt, w)
  | ServiceAdd p port =>
      let bound := bind_ok env (services w) p port in
      (Next bound, set_services (service_add bound p port (services w)) w)
  | Call s => (Next (stage_ok env s), w)
  | ExceptionWhat => (Next (exception_what env), w)
  | GetString k => (Next (cfg_string env k), w)
  | GetBoolean k => (Next (cfg_boolean env k), w)
  | GetNumber k => (Next (cfg_number env k), w)
  | DatabaseClientVersion => (Next (client_version env), w)
  | IsRootUser => (Next (root_user env), w)
  | IfstreamOpen path => (Next (ifstream_is_open env path (files w)), w)
  | OfstreamOpen path =>
      let is_open := ofstream_is_open env path (files w) in
      (Next is_open,
       set_files (if is_open then fs_truncate path (files w) else files w) w)
  | StreamCopy src dst dst_open =>
      (Next tt,
       set_files (if dst_open then fs_copy src dst (files w) else files w) w)
  | StreamClose _ => (Next tt, w)
  | SetGameState g => (Next tt, set_gameState (Some g) w)
  | SetWorldType g => (Next tt, set_worldType (Some g) w)
  | PayHouses r => (Next tt, set_rentPeriod (Some r) w)
  | Extern _ => (Next tt, w)
  end.

(** Every operation is recorded in the trace of the process. *)
Definition exec (t : tid) (o : op) (w : World) : reply (ret_type o) * World :=
  let (r, w') := effect t o w in
  (r, set_trace ((t, o) :: trace w') w').

(** [run t p w]: thread [t] executes [p] from [w], alone, until it returns,
    blocks or exits. *)
Fixpoint run {A : Type} (t : tid) (p : prog A) (w : World) : outcome A * World :=
  match p with
  | Ret a => (Returned a, w)
  | Do o k =>
      match exec t o w with
      | (Next x, w') => run t (k x) w'
      | (Park x, w') => (Parked (k x), w')
      | (Halt, w') => (Exited, w')
      end
  end.

(** A thread can take a step when the process is alive and the thread is not
    waiting on the condition variable. *)
Definition runnable (t : tid) (w : World) : bool :=
  match exit_code w with
  | Some _ => false
  | None => negb (existsb (tid_eqb t) (waiters w))
  end.

(** A parked thread goes on when it is woken. *)
Definition resume {A : Type} (t : tid) (r : outcome A * World) (w : World)
    : outcome A * World :=
  match fst r with
  | Parked k => if runnable t w then run t k w else (Parked k, w)
  | o => (o, w)
  end.

End Semantics.

(** The operations of thread [t] in a trace, in the order of the trace. *)
Fixpoint thread_ops (t : tid) (l : list (tid * op)) : list op :=
  match l with
  | [] => []
  | (t', o) :: l' =>
      if tid_eqb t t' then o :: thread_ops t l' else thread_ops t l'
  end.

(** The operations thread [t] has performed, newest first. *)
Definition ops (t : tid) (w : World) : list op := thread_ops t (trace w).

(** The operations thread [t] has performed, oldest first. *)
Definition history (t : tid) (w : World) : list op := rev (ops t w).

(** ** The two threads together *)

Section Interleaving.

Variable build : Build.
Variable env : Env.

(** One operation of thread [t], whose remaining program is [p]. *)
Definition step {A : Type} (t : tid) (p : prog A) (w : World)
    : option (prog A * World) :=
  if runnable t w then
    match p with
    | Ret _ => None
    | Do o k =>
        match exec env t o w with
        | (Next x, w') => Some (k x, w')
        | (Park x, w') => Some (k x, w')
        | (Halt, w') => Some (p, w')
        end
    end
  else None.

(** The process: what [main] has left to do, what the dispatcher thread has
    left to do of its current task ([Ret tt] when it has none), and the shared
    state. *)
Record System : Type := {
  at_main : prog Z;
  at_dispatcher : prog unit;
  world : World
}.

Definition power_on (fs : gmap string string) : System :=
  {| at_main := main build; at_dispatcher := Ret tt; world := boot fs |}.

(** The dispatcher thread exists once [g_dispatcher] has been started; when
    it has no task it takes the oldest one of the queue. *)
Definition sys_step (t : tid) (s : System) : option System :=
  match t with
  | MainThread =>
      match step MainThread (at_main s) (world s) with
      | Some (p, w) =>
          Some {| at_main := p; at_dispatcher := at_dispatcher s; world := w |}
      | None => None
      end
  | DispatcherThread =>
      match at_dispatcher s with
      | Ret _ =>
          match g_dispatcher (world s), queue (world s) with
          | Running, k :: q =>
              if runnable DispatcherThread (world s) then
                Some {| at_main := at_main s;
                        at_dispatcher := task_body build k;
                        world := set_queue q (world s) |}
              else None
          | _, _ => None
          end
      | p =>
          match step DispatcherThread p (world s) with
          | Some (p', w) =>
              Some {| at_main := at_main s; at_dispatcher := p'; world := w |}
          | None => None
          end
      end
  end.

(** The process under a schedule: the threads take their steps in the order
    of the list; a thread that cannot take a step when its turn comes lets it
    pass. *)
Fixpoint sys_run (sched : list tid) (s : System) : System :=
  match sched with
  | [] => s
  | t :: sched' =>
      match sys_step t s with
      | Some s' => sys_run sched' s'
      | None => sys_run sched' s
      end
  end.

(** No thread can take a step although the process has not exited. *)
Definition deadlocked (s : System) : Prop :=
  exit_code (world s) = None /\ forall t, sys_step t s = None.

(** [std::condition_variable::wait] without a predicate may return although
    nobody has notified.  What can happen to the process is a step of a
    thread, or such a wake-up of a thread that is waiting. *)
Inductive event : Type :=
| Step (t : tid)
| Wake (t : tid).

Definition wake (t : tid) (w : World) : World :=
  set_waiters (List.filter (fun u => negb (tid_eqb t u)) (waiters w)) w.

Definition sys_event (e : event) (s : System) : option System :=
  match e with
  | Step t => sys_step t s
  | Wake t =>
      if existsb (tid_eqb t) (waiters (world s)) then
        Some {| at_main := at_main s; at_dispatcher := at_dispatcher s;
                world := wake t (world s) |}
      else None
  end.

(** The process under a list of events; an event that cannot happen when its
    turn comes is passed over. *)
Fixpoint sys_play (l : list event) (s : System) : System :=
  match l with
  | [] => s
  | e :: l' =>
      match sys_event e s with
      | Some s' => sys_play l' s'
      | None => sys_play l' s
      end
  end.

End Interleaving.

(** ** Observations on traces *)

Definition is_notify (o : op) : bool :=
  match o with NotifyAll => true | _ => false end.

(** Number of [notify_all] in a list of operations. *)
Fixpoint notify_count (l : list op) : nat :=
  match l with
  | [] => 0
  | o :: l' => (if is_notify o then 1 else 0) + notify_count l'
  end.

Definition is_service_add (o : op) : bool :=
  match o with ServiceAdd _ _ => true | _ => false end.

(** The operations of [startupErrorMessage] and of the error reports that
    lead to it (the text of the exception at line 175, the setting printed at
    line 360): they talk to the operator and end the process, no stage of the
    pipeline is among them. *)
Definition is_escalation (o : op) : bool :=
  match o with
  | Log _ _ | ExceptionWhat | GetString WORLD_TYPE | NotifyAll | GetChar
  | Exit _ => true
  | _ => false
  end.

Definition is_db_start (o : op) : bool :=
  match o with Start G_databaseTasks => true | _ => false end.

Definition is_start (o : op) : bool :=
  match o with Start _ => true | _ => false end.

(** Operations that change the file system. *)
Definition writes_file (o : op) : bool :=
  match o with
  | OfstreamOpen _ | StreamCopy _ _ _ => true
  | _ => false
  end.

Definition is_config_load (o : op) : bool :=
  match o with Call ConfigLoad => true | _ => false end.

Definition is_wait (o : op) : bool :=
  match o with Wait => true | _ => false end.



(** The operations that follow the first [wait] in a list of operations,
    oldest first. *)
Fixpoint after_wait (l : list op) : list op :=
  match l with
  | [] => []
  | Wait :: l' => l'
  | _ :: l' => after_wait l'
  end.


Definition reads_key (k : string_key) (o : op) : bool :=
  match o, k with
  | GetString WORLD_TYPE, WORLD_TYPE => true
  | GetString HOUSE_RENT_PERIOD, HOUSE_RENT_PERIOD => true
  | _, _ => false
  end.

(** The world type the source selects for a lower-cased setting
    (lines 352-358), [None] when it takes the error branch. *)
Definition worldType_of (worldType : string) : option WorldType_t :=
  if String.eqb worldType "pvp" then Some WORLD_TYPE_PVP
  else if String.eqb worldType "no-pvp" then Some WORLD_TYPE_NO_PVP
  else if String.eqb worldType "pvp-enforced" then Some WORLD_TYPE_PVP_ENFORCED
  else None.

(** What lines 323-336 make of the working directory: config.lua gets the
    content of config.lua.dist when it cannot be opened for reading,
    config.lua.dist can, and config.lua can be opened for writing. *)
Definition copied (e : Env) (fs : gmap string string) : gmap string string :=
  if ifstream_is_open e "./config.lua" fs then fs
  else if ifstream_is_open e "./config.lua.dist" fs then
    if ofstream_is_open e "config.lua" fs then
      match fs !! "config.lua.dist" with
      | Some dist => <["config.lua" := dist]> fs
      | None => fs
      end
    else fs
  else fs.

Inductive verdict : Type := Clean | Failed | Violated.

Section Monitors.

Variable env : Env.

(** The operation is a mandatory stage that fails: a call of a mandatory
    loader that reports failure, or the reading of a world type that is none
    of the three the source accepts. *)
Definition failing (o : op) : bool :=
  match o with
  | Call s => mandatory s && negb (stage_ok env s)
  | GetString WORLD_TYPE =>
      match worldType_of (asLowerCaseString (cfg_string env WORLD_TYPE)) with
      | Some _ => false
      | None => true
      end
  | _ => false
  end.

(** [watch l] reads a list of operations (newest first) from its oldest
    element: [Clean] while no mandatory stage has failed, [Failed] once one
    has and only escalation operations have followed, [Violated] when
    anything else followed a failure. *)
Fixpoint watch (l : list op) : verdict :=
  match l with
  | [] => Clean
  | o :: older =>
      match watch older with
      | Clean => if failing o then Failed else Clean
      | Failed => if is_escalation o then Failed else Violated
      | Violated => Violated
      end
  end.

End Monitors.

(** ** Concrete processes *)

(** A Linux build with GCC, C++17. *)
Definition build0 : Build :=
  {| OS_WINDOWS := false; WIN32 := false; DEBUG_LOG := false;
     compiler := GNUC 11 2 0; cplusplus := 201703; platform := Amd64;
     STATUS_SERVER_NAME := "Canary"; STATUS_SERVER_VERSION := "1.0.0";
     STATUS_SERVER_DEVELOPERS := "OpenTibiaBR Organization";
     GIT_RETRIEVED_STATE := false; GIT_COMMIT_DATE_ISO8601 := "";
     GIT_IS_DIRTY := false; LUAJIT_VERSION := None;
     DATE := "Jan  1 2022"; TIME := "00:00:00" |}.

(** Everything loads, every port can be bound. *)
Definition env_ok : Env :=
  {| stage_ok := fun _ => true;
     exception_what := "";
     cfg_string := fun k =>
       match k with
       | CLIENT_VERSION_STR => "12.85"
       | SERVER_NAME => "Canary"
       | DEFAULT_PRIORITY => "high"
       | WORLD_TYPE => "pvp"
       | MAP_NAME => "canary"
       | MAP_CUSTOM_NAME => ""
       | HOUSE_RENT_PERIOD => "never"
       | DISCORD_WEBHOOK_URL => ""
       end;
     cfg_boolean := fun _ => false;
     cfg_number := fun k =>
       match k with
       | GAME_PORT => 7172
       | LOGIN_PORT => 7171
       | STATUS_PORT => 7171
       end;
     client_version := "8.0";
     root_user := false;
     bind_ok := fun _ _ _ => true;
     can_read := fun _ => true;
     can_write := fun _ => true;
     can_create := fun _ => true |}.

Definition with_stages (f : stage -> bool) (e : Env) : Env :=
  {| stage_ok := f; exception_what := exception_what e;
     cfg_string := cfg_string e; cfg_boolean := cfg_boolean e;
     cfg_number := cfg_number e; client_version := client_version e;
     root_user := root_user e; bind_ok := bind_ok e;
     can_read := can_read e; can_write := can_write e;
     can_create := can_create e |}.

Definition with_strings (f : string_key -> string) (e : Env) : Env :=
  {| stage_ok := stage_ok e; exception_what := exception_what e;
     cfg_string := f; cfg_boolean := cfg_boolean e;
     cfg_number := cfg_number e; client_version := client_version e;
     root_user := root_user e; bind_ok := bind_ok e;
     can_read := can_read e; can_write := can_write e;
     can_create := can_create e |}.

Definition with_binds (f : list (protocol * Z) -> protocol -> Z -> bool)
    (e : Env) : Env :=
  {| stage_ok := stage_ok e; exception_what := exception_what e;
     cfg_string := cfg_string e; cfg_boolean := cfg_boolean e;
     cfg_number := cfg_number e; client_version := client_version e;
     root_user := root_user e; bind_ok := f;
     can_read := can_read e; can_write := can_write e;
     can_create := can_create e |}.

(** [g_configManager().load()] fails. *)
Definition env_no_config : Env :=
  with_stages (fun s => match s with ConfigLoad => false | _ => true end) env_ok.

(** The main map cannot be loaded. *)
Definition env_no_map : Env :=
  with_stages (fun s => match s with LoadMainMap _ => false | _ => true end) env_ok.

Definition env_world (v : string) : Env :=
  with_strings (fun k => match k with WORLD_TYPE => v | _ => cfg_string env_ok k end)
    env_ok.

Definition env_rent (v : string) : Env :=
  with_strings
    (fun k => match k with HOUSE_RENT_PERIOD => v | _ => cfg_string env_ok k end)
    env_ok.

(** Every port is in use. *)
Definition env_ports_busy : Env := with_binds (fun _ _ _ => false) env_ok.

(** config.lua can be written but not read, as when its mode is 0200; the
    configuration manager cannot load it either. *)
Definition env_unreadable : Env :=
  {| stage_ok := stage_ok env_no_config;
     exception_what := exception_what env_ok;
     cfg_string := cfg_string env_ok; cfg_boolean := cfg_boolean env_ok;
     cfg_number := cfg_number env_ok; client_version := client_version env_ok;
     root_user := root_user env_ok; bind_ok := bind_ok env_ok;
     can_read := fun path => negb (String.eqb path "config.lua");
     can_write := can_write env_ok; can_create := can_create env_ok |}.


(** A working directory with config.lua.dist only, one with both files, and
    an empty one. *)
Definition fs_dist : gmap string string :=
  {[ "config.lua.dist" := "worldType = pvp" ]}.

Definition fs_both : gmap string string :=
  <["config.lua" := "worldType = no-pvp"]> fs_dist.

Definition fs_none : gmap string string := ∅.

(** The process at the moment [main] has submitted the loader and waits. *)
Definition submitted (e : Env) (b : Build) (fs : gmap string string) : World :=
  snd (run e MainThread (main b) (boot fs)).

(** The process after the loader has run on the dispatcher thread. *)
Definition loaded (e : Env) (b : Build) (fs : gmap string string) : outcome unit * World :=
  run e DispatcherThread (mainLoader b) (submitted e b fs).

(** The process after the main thread has been let go on from there. *)
Definition finished (e : Env) (b : Build) (fs : gmap string string) : outcome Z * World :=
  resume e MainThread (run e MainThread (main b) (boot fs)) (snd (loaded e b fs)).

(** The dispatcher thread runs the whole loader between the submission of
    the task and the moment the main thread reaches [wait]. *)
Definition late_wait : System :=
  sys_run build0 env_ok
    (repeat MainThread 5 ++ repeat DispatcherThread 200 ++ repeat MainThread 5)
    (power_on build0 fs_dist).

(** The main thread reaches [wait], wakes up without a notification and goes
    on, while the dispatcher thread has not yet taken the loader. *)
Definition early_wake : list event :=
  repeat (Step MainThread) 8 ++ [Wake MainThread] ++ repeat (Step MainThread) 5.

(** The claim that every worker is asked to shut down. *)
Definition all_workers_shut_down (h : list op) : Prop :=
  forall k : worker, In (Shutdown k) h.

(** The status with which the process ends, when it does. *)
Definition exit_status (r : outcome Z * World) : option Z :=
  match fst r with
  | Returned z => Some z
  | Exited => exit_code (snd r)
  | Parked _ => None
  end.

(** ** Assertions on the process *)

Definition error_notice : op :=
  Log LError "The program will close after pressing the enter key...".

Section Assertions.

Variable env : Env.

(** [triple t P p Q E]: from a state satisfying [P], thread [t] running [p]
    never blocks; it returns in a state satisfying [Q] or the process exits in
    a state satisfying [E]. *)
Definition triple {A : Type} (t : tid) (P : World -> Prop) (p : prog A)
    (Q : A -> World -> Prop) (E : World -> Prop) : Prop :=
  forall w, P w ->
    match run env t p w with
    | (Returned a, w') => Q a w'
    | (Parked _, _) => False
    | (Exited, w') => E w'
    end.

(** The process is alive and the dispatcher thread has not done anything:
    the state in which the loader starts. *)
Definition loader_ready (w : World) : Prop :=
  exit_code w = None /\ ops DispatcherThread w = [].

Definition sound (bound : list (protocol * Z)) (w : World) : Prop :=
  exit_code w = None /\
  notify_count (ops DispatcherThread w) = 0%nat /\
  services w = bound /\
  existsb is_service_add (ops DispatcherThread w) = false.

Definition serving (w : World) : Prop :=
  exit_code w = None /\ notify_count (ops DispatcherThread w) = 0%nat.

Definition escalated (bound : list (protocol * Z)) (w : World) : Prop :=
  exit_code w = Some (-1) /\ waiters w = [] /\ services w = bound /\
  exists rest,
    ops DispatcherThread w
    = Exit (-1) :: GetChar :: NotifyAll :: error_notice :: rest
    /\ notify_count rest = 0%nat
    /\ existsb is_service_add rest = false.

Definition completed (w : World) : Prop :=
  exit_code w = None /\ waiters w = [] /\
  exists rest,
    ops DispatcherThread w = NotifyAll :: rest /\ notify_count rest = 0%nat.

Definition unfailed (w : World) : Prop :=
  exit_code w = None /\ watch env (ops DispatcherThread w) = Clean.

Definition halted (w : World) : Prop :=
  exit_code w = Some (-1) /\ watch env (ops DispatcherThread w) <> Violated.

(** The four checks of [loadModules] that precede the start of
    [g_databaseTasks] (lines 165-193). *)
Definition database_ready : bool :=
  stage_ok env ConfigLoad && stage_ok env (RsaLoadPEM "key.pem")
  && stage_ok env DatabaseConnect && stage_ok env IsDatabaseSetup.

Definition db_idle (known : bool) (w : World) : Prop :=
  exit_code w = None /\ g_databaseTasks w = Stopped /\ known = true /\
  existsb is_db_start (ops DispatcherThread w) = false.

Definition db_started (w : World) : Prop :=
  g_databaseTasks w = Running /\ database_ready = true /\
  existsb is_db_start (ops DispatcherThread w) = true.

Definition db_outcome (w : World) : Prop :=
  g_databaseTasks w = (if database_ready then Running else Stopped) /\
  existsb is_db_start (ops DispatcherThread w) = database_ready.

Definition unread (k : string_key) (w : World) : Prop :=
  exit_code w = None /\ existsb (reads_key k) (ops DispatcherThread w) = false.

Definition typed (w : World) : Prop :=
  existsb (reads_key WORLD_TYPE) (ops DispatcherThread w) = true /\
  exists t,
    worldType_of (asLowerCaseString (cfg_string env WORLD_TYPE)) = Some t
    /\ worldType w = Some t.

Definition judged (w : World) : Prop :=
  existsb (reads_key WORLD_TYPE) (ops DispatcherThread w) = true ->
  forall t,
    worldType_of (asLowerCaseString (cfg_string env WORLD_TYPE)) = Some t ->
    worldType w = Some t.

Definition rented (w : World) : Prop :=
  exit_code w = None /\
  existsb (reads_key HOUSE_RENT_PERIOD) (ops DispatcherThread w) = true /\
  rentPeriod w =
    Some (rentPeriod_of (asLowerCaseString (cfg_string env HOUSE_RENT_PERIOD))).

Definition unrented (w : World) : Prop :=
  existsb (reads_key HOUSE_RENT_PERIOD) (ops DispatcherThread w) = false.

End Assertions.

(** ** Further observations on traces *)

Definition is_call (o : op) : bool :=
  match o with Call _ => true | _ => false end.

Definition is_NewScripts (o : op) : bool :=
  match o with Extern NewScripts => true | _ => false end.
Definition is_NewModules (o : op) : bool :=
  match o with Extern NewModules => true | _ => false end.
Definition is_NewEvents (o : op) : bool :=
  match o with Extern NewEvents => true | _ => false end.
Definition is_NewImbuements (o : op) : bool :=
  match o with Extern NewImbuements => true | _ => false end.

(** The four objects of [initGlobalScopes] have been created. *)
Definition created (l : list op) : bool :=
  existsb is_NewScripts l && existsb is_NewModules l
  && existsb is_NewEvents l && existsb is_NewImbuements l.

(** In a list of operations, newest first: every loader call comes after
    the creation of the four objects. *)
Fixpoint calls_after_scopes (l : list op) : bool :=
  match l with
  | [] => true
  | o :: older =>
      (if is_call o then created older else true) && calls_after_scopes older
  end.

(** In a list of operations, newest first: once [notify_all] has been
    called, nothing follows but [getchar] and [exit]. *)
Fixpoint quiet_after_notify (l : list op) : bool :=
  match l with
  | [] => true
  | o :: older =>
      (if existsb is_notify older
       then match o with GetChar | Exit _ => true | _ => false end
       else true)
      && quiet_after_notify older
  end.

(** The services [add] was called for, in the order of the list. *)
Fixpoint service_adds (l : list op) : list (protocol * Z) :=
  match l with
  | [] => []
  | ServiceAdd p port :: l' => (p, port) :: service_adds l'
  | _ :: l' => service_adds l'
  end.

Definition is_optimize (o : op) : bool :=
  match o with Call OptimizeTables => true | _ => false end.

Definition is_custom_map (o : op) : bool :=
  match o with Call (LoadCustomMap _) => true | _ => false end.

(** Every [exit] of the program has code [c]. *)
Fixpoint exits_with {A : Type} (c : Z) (p : prog A) : Prop :=
  match p with
  | Ret _ => True
  | Do o k =>
      match o with Exit c' => c' = c | _ => True end
      /\ forall x, exits_with c (k x)
  end.

(** Every [return] of the program has value [a]. *)
Fixpoint returns_only {A : Type} (a : A) (p : prog A) : Prop :=
  match p with
  | Ret a' => a' = a
  | Do o k => forall x, returns_only a (k x)
  end.

(** [services->add<P>(port)] on the set [l] of services. *)
Definition register (e : Env) (p : protocol) (port : Z) (l : list (protocol * Z))
    : list (protocol * Z) :=
  service_add (bind_ok e l p port) p port l.

Definition is_getchar_or_exit (o : op) : bool :=
  match o with GetChar | Exit _ => true | _ => false end.

(** Optimizing the tables fails, and no port can be bound; every mandatory
    stage succeeds. *)
Definition env_rough : Env :=
  {| stage_ok := fun s => match s with OptimizeTables => false | _ => true end;
     exception_what := exception_what env_ok;
     cfg_string := cfg_string env_ok;
     cfg_boolean := fun _ => true;
     cfg_number := cfg_number env_ok;
     client_version := client_version env_ok;
     root_user := true;
     bind_ok := fun _ _ _ => false;
     can_read := can_read env_ok; can_write := can_write env_ok;
     can_create := can_create env_ok |}.

Section MoreAssertions.

Variable env : Env.

Definition failed (w : World) : Prop :=
  exit_code w = Some (-1) /\ watch env (ops DispatcherThread w) = Failed.

Definition in_state (g : GameState_t) (w : World) : Prop :=
  exit_code w = None /\ gameState w = Some g.

Definition stuck_in (g : GameState_t) (w : World) : Prop :=
  exit_code w = Some (-1) /\ gameState w = Some g.

Definition guarded (w : World) : Prop :=
  (existsb is_optimize (ops DispatcherThread w) = true ->
   cfg_boolean env OPTIMIZE_DATABASE = true)
  /\ (existsb is_custom_map (ops DispatcherThread w) = true ->
      cfg_boolean env TOGGLE_MAP_CUSTOM = true).

Definition scoped (ready : bool) (w : World) : Prop :=
  calls_after_scopes (ops DispatcherThread w) = true
  /\ (if ready then created (ops DispatcherThread w) = true
      else existsb is_call (ops DispatcherThread w) = false).

Definition unsignalled (w : World) : Prop :=
  existsb is_notify (ops DispatcherThread w) = false
  /\ quiet_after_notify (ops DispatcherThread w) = true.

Definition signalled (w : World) : Prop :=
  quiet_after_notify (ops DispatcherThread w) = true.

(** The three calls of lines 385-388, newest first. *)
Definition three_adds : list (protocol * Z) :=
  [(ProtocolStatus, to_uint16 (cfg_number env STATUS_PORT));
   (ProtocolLogin, to_uint16 (cfg_number env LOGIN_PORT));
   (ProtocolGame, to_uint16 (cfg_number env GAME_PORT))].

Definition added (l : list (protocol * Z)) (w : World) : Prop :=
  service_adds (ops DispatcherThread w) = l.

Definition holds (l : list (protocol * Z)) (w : World) : Prop :=
  services w = l.

(** What lines 385-388 make of the set [l] of services. *)
Definition registered (l : list (protocol * Z)) : list (protocol * Z) :=
  register env ProtocolStatus (to_uint16 (cfg_number env STATUS_PORT))
    (register env ProtocolLogin (to_uint16 (cfg_number env LOGIN_PORT))
       (register env ProtocolGame (to_uint16 (cfg_number env GAME_PORT)) l)).

End MoreAssertions.

(** What every state of the process satisfies. *)
Definition well_coded (s : System) : Prop :=
  exits_with (-1) (at_main s) /\ exits_with (-1) (at_dispatcher s)
  /\ returns_only 0 (at_main s)
  /\ (exit_code (world s) = None \/ exit_code (world s) = Some (-1)).

(** ** What a thread does, whatever the other does *)

(** The operations thread [t] performs when it executes [p] from [w] to its
    end, oldest first, the wake-ups it needs being granted. *)
Fixpoint performed {A : Type} (e : Env) (t : tid) (p : prog A) (w : World)
    : list op :=
  match p with
  | Ret _ => []
  | Do o k =>
      o :: match exec e t o w with
           | (Next x, w') => performed e t (k x) w'
           | (Park x, w') => performed e t (k x) w'
           | (Halt, _) => []
           end
  end.

(** The part of the state the answers of the operations depend on. *)
Definition same_view (w1 w2 : World) : Prop :=
  files w1 = files w2 /\ services w1 = services w2.

(** Operations that leave that part as it is. *)
Definition keeps_view (o : op) : bool :=
  match o with
  | ServiceAdd _ _ | OfstreamOpen _ | StreamCopy _ _ _ => false
  | _ => true
  end.

Definition is_addTask (o : op) : bool :=
  match o with AddTask _ => true | _ => false end.

(** Every operation of the program satisfies [f]. *)
Fixpoint all_ops {A : Type} (f : op -> bool) (p : prog A) : Prop :=
  match p with
  | Ret _ => True
  | Do o k => f o = true /\ forall x, all_ops f (k x)
  end.

(** The program submits at most [n] tasks. *)
Fixpoint adds_at_most {A : Type} (n : nat) (p : prog A) : Prop :=
  match p with
  | Ret _ => True
  | Do o k =>
      if is_addTask o
      then match n with
           | O => False
           | S m => forall x, adds_at_most m (k x)
           end
      else forall x, adds_at_most n (k x)
  end.

Section Prefix.

Variable build : Build.
Variable env : Env.
Variable fs : gmap string string.

(** What the loader does when nothing stops it. *)
Definition loader_script : list op :=
  performed env DispatcherThread (mainLoader build) (boot fs).

(** The dispatcher thread has not taken the loader yet. *)
Definition not_started (s : System) : Prop :=
  at_dispatcher s = Ret tt
  /\ history DispatcherThread (world s) = []
  /\ same_view (world s) (boot fs)
  /\ ((queue (world s) = [] /\ adds_at_most 1 (at_main s))
      \/ (queue (world s) = [MainLoaderTask] /\ adds_at_most 0 (at_main s))).

(** The dispatcher thread has taken the loader: what it has done and what
    it has left to do make up the script. *)
Definition started (s : System) : Prop :=
  queue (world s) = []
  /\ adds_at_most 0 (at_main s)
  /\ all_ops (fun o => negb (is_addTask o)) (at_dispatcher s)
  /\ exists rest,
       loader_script = (history DispatcherThread (world s) ++ rest)%list
       /\ (exit_code (world s) = None ->
           rest = performed env DispatcherThread (at_dispatcher s) (world s)).

Definition on_script (s : System) : Prop :=
  all_ops keeps_view (at_main s) /\ (not_started s \/ started s).

End Prefix.

(** The program calls [is_running] only after a [wait]. *)
Fixpoint waits_first {A : Type} (p : prog A) : Prop :=
  match p with
  | Ret _ => True
  | Do o k =>
      match o with
      | Wait => True
      | IsRunning => False
      | _ => forall x, waits_first (k x)
      end
  end.

(** Without wake-ups, the main thread has not waited yet, or it is waiting
    and has done nothing since it began to, or the dispatcher thread has
    notified. *)
Definition patient (s : System) : Prop :=
  ~ In Wait (history MainThread (world s))
  \/ (In MainThread (waiters (world s))
      /\ after_wait (history MainThread (world s)) = [])
  \/ In NotifyAll (history DispatcherThread (world s)).

(** * Proofs *)

Local Open Scope list_scope.

(** ** Symbolic execution *)

Create HintDb prog discriminated.
#[export] Hint Unfold skip log notify_all wait getchar start shutdown join addTask
  serviceRun ofstreamOpen streamCopy streamClose setGameState setWorldType
  payHouses ext is_running serviceAdd call exceptionWhat getString getBoolean
  getNumber databaseClientVersion isRootUser ifstreamOpen exit when
  toggleForceCloseButton startupErrorMessage badAllocationHandler
  initGlobalScopes modulesLoadHelper main_startup main_decide main
  mainLoader_banner mainLoader_copyConfig
  mainLoader_priority mainLoader_worldType mainLoader_map mainLoader_services
  mainLoader_rent mainLoader_rootWarning : prog.

Ltac sym_exec :=
  cbv beta iota zeta delta [run bind exec effect negb fst snd andb orb
       set_files set_services set_worker set_gameState set_worldType
       set_rentPeriod set_queue set_waiters set_exit_code set_trace
       files services g_dispatcher g_scheduler g_databaseTasks gameState
       worldType rentPeriod queue waiters exit_code trace worker_state
       ops thread_ops tid_eqb notify_count is_notify Nat.add existsb
       is_service_add is_escalation writes_file is_config_load reads_key
       watch failing mandatory error_notice is_db_start is_start
       worldType_of
       worker_start worker_shutdown worker_join worker_submit] in *.

Ltac sym_split :=
  match goal with
  | |- context [match ?b with true => _ | false => _ end] =>
      lazymatch b with
      | context [match _ with true => _ | false => _ end] => fail
      | _ => destruct b eqn:?
      end
  | |- context [match ?b with Some _ => _ | None => _ end] =>
      destruct b eqn:?
  end.

Ltac use_eqs :=
  repeat match goal with
         | H : ?l = ?r |- context [?l] => rewrite H
         end.

Ltac settle :=
  repeat match goal with
         | H : _ /\ _ |- _ => destruct H
         | H : exists _, _ |- _ => destruct H
         end;
  repeat (split || eexists);
  sym_exec; use_eqs; sym_exec;
  first [ assumption | reflexivity | congruence | eauto ].

Ltac block :=
  let w := fresh "w" in
  let Hw := fresh "Hw" in
  intros w Hw; destruct w; autounfold with prog; sym_exec;
  repeat (sym_split; sym_exec).

Section Logic.
Variable env : Env.

Lemma run_bind {A B : Type} t (p : prog A) (f : A -> prog B) w :
  run env t (bind p f) w =
  match run env t p w with
  | (Returned a, w') => run env t (f a) w'
  | (Parked k, w') => (Parked (bind k f), w')
  | (Exited, w') => (Exited, w')
  end.
Proof.
  revert w. induction p as [a | o k IH]; intros w; cbn [bind run].
  - reflexivity.
  - destruct (exec env t o w) as [[x | x |] w']; auto.
Qed.

Lemma triple_bind {A B : Type} t P (p : prog A) (f : A -> prog B) R Q E :
  triple env t P p R E -> (forall a, triple env t (R a) (f a) Q E) ->
  triple env t P (bind p f) Q E.
Proof.
  intros Hp Hf w Hw. rewrite run_bind. specialize (Hp w Hw).
  destruct (run env t p w) as [[a | k |] w']; auto.
  apply Hf; auto.
Qed.

Lemma triple_seq {A : Type} t I (p : prog unit) (q : prog A) Q E :
  triple env t I p (fun _ => I) E -> triple env t I q Q E ->
  triple env t I (bind p (fun _ => q)) Q E.
Proof. intros Hp Hq. eapply triple_bind; eauto. Qed.

Lemma triple_cut {A : Type} t I J (p : prog unit) (q : prog A) Q E :
  triple env t I p (fun _ => J) E -> triple env t J q Q E ->
  triple env t I (bind p (fun _ => q)) Q E.
Proof. intros Hp Hq. eapply triple_bind; eauto. Qed.

Lemma triple_weaken {A : Type} t (P P' : World -> Prop) (p : prog A)
    (Q Q' : A -> World -> Prop) (E E' : World -> Prop) :
  triple env t P p Q E ->
  (forall w, P' w -> P w) -> (forall a w, Q a w -> Q' a w) ->
  (forall w, E w -> E' w) ->
  triple env t P' p Q' E'.
Proof.
  intros H HP HQ HE w Hw. specialize (H w (HP w Hw)).
  destruct (run env t p w) as [[a | k |] w']; auto.
Qed.

Variable build : Build.

Ltac stmt := block; unfold sound, serving, escalated, completed in *; settle.

Lemma loadModules_sound bound :
  triple env DispatcherThread (sound bound) loadModules
    (fun _ => sound bound) (escalated bound).
Proof.
  unfold loadModules.
  repeat (apply triple_seq; [ stmt | ]). stmt.
Qed.

Lemma mainLoader_sound bound :
  triple env DispatcherThread (sound bound) (mainLoader build)
    (fun _ => completed) (escalated bound).
Proof.
  unfold mainLoader.
  (apply triple_seq; [ stmt | ]).
  (apply triple_seq; [ stmt | ]).
  (apply triple_seq; [ stmt | ]).
  (apply triple_seq; [ apply loadModules_sound | ]).
  (apply triple_seq; [ stmt | ]).
  (apply triple_seq; [ stmt | ]).
  (apply triple_seq; [ stmt | ]).
  (apply triple_seq; [ stmt | ]).
  (apply triple_seq; [ stmt | ]).
  (apply triple_cut with (J := serving); [ stmt | ]).
  (repeat (apply triple_seq; [ stmt | ])). stmt.
Qed.


Ltac stmt_with tac := block; tac; settle.

Ltac unfold_watch := unfold unfailed, halted in *.

Lemma loadModules_watch :
  triple env DispatcherThread (unfailed env) loadModules
    (fun _ => unfailed env) (halted env).
Proof.
  unfold loadModules.
  repeat (apply triple_seq; [ stmt_with unfold_watch | ]). stmt_with unfold_watch.
Qed.

Lemma mainLoader_watch :
  triple env DispatcherThread (unfailed env) (mainLoader build)
    (fun _ => unfailed env) (halted env).
Proof.
  unfold mainLoader.
  do 3 (apply triple_seq; [ stmt_with unfold_watch | ]).
  apply triple_seq; [ apply loadModules_watch | ].
  repeat (apply triple_seq; [ stmt_with unfold_watch | ]). stmt_with unfold_watch.
Qed.

Ltac unfold_db := unfold db_idle, db_started, db_outcome, database_ready in *.

Lemma loadModules_db :
  triple env DispatcherThread (db_idle true) loadModules
    (fun _ => db_started env) (db_outcome env).
Proof.
  unfold loadModules.
  apply triple_cut with (J := db_idle (stage_ok env ConfigLoad));
    [ stmt_with unfold_db | ].
  apply triple_seq; [ stmt_with unfold_db | ].
  apply triple_cut
    with (J := db_idle (stage_ok env ConfigLoad && stage_ok env (RsaLoadPEM "key.pem")));
    [ stmt_with unfold_db | ].
  apply triple_seq; [ stmt_with unfold_db | ].
  apply triple_cut
    with (J := db_idle (stage_ok env ConfigLoad && stage_ok env (RsaLoadPEM "key.pem")
                        && stage_ok env DatabaseConnect));
    [ stmt_with unfold_db | ].
  do 2 (apply triple_seq; [ stmt_with unfold_db | ]).
  apply triple_cut with (J := db_idle (database_ready env));
    [ stmt_with unfold_db | ].
  apply triple_cut with (J := db_started env); [ stmt_with unfold_db | ].
  repeat (apply triple_seq; [ stmt_with unfold_db | ]). stmt_with unfold_db.
Qed.

Lemma mainLoader_db :
  triple env DispatcherThread (db_idle true) (mainLoader build)
    (fun _ => db_started env) (db_outcome env).
Proof.
  unfold mainLoader.
  do 3 (apply triple_seq; [ stmt_with unfold_db | ]).
  apply triple_cut with (J := db_started env); [ apply loadModules_db | ].
  repeat (apply triple_seq; [ stmt_with unfold_db | ]). stmt_with unfold_db.
Qed.

Ltac unfold_type := unfold unread, typed, judged, worldType_of in *.

Lemma loadModules_type :
  triple env DispatcherThread (unread WORLD_TYPE) loadModules
    (fun _ => unread WORLD_TYPE) (judged env).
Proof.
  unfold loadModules.
  repeat (apply triple_seq; [ stmt_with unfold_type | ]). stmt_with unfold_type.
Qed.

Lemma mainLoader_type :
  triple env DispatcherThread (unread WORLD_TYPE) (mainLoader build)
    (fun _ => typed env) (judged env).
Proof.
  unfold mainLoader.
  do 3 (apply triple_seq; [ stmt_with unfold_type | ]).
  apply triple_seq; [ apply loadModules_type | ].
  apply triple_seq; [ stmt_with unfold_type | ].
  apply triple_cut with (J := typed env); [ stmt_with unfold_type | ].
  repeat (apply triple_seq; [ stmt_with unfold_type | ]). stmt_with unfold_type.
Qed.

Ltac unfold_rent := unfold unread, rented, unrented in *.

Lemma loadModules_rent :
  triple env DispatcherThread (unread HOUSE_RENT_PERIOD) loadModules
    (fun _ => unread HOUSE_RENT_PERIOD) unrented.
Proof.
  unfold loadModules.
  repeat (apply triple_seq; [ stmt_with unfold_rent | ]). stmt_with unfold_rent.
Qed.

Lemma mainLoader_rented :
  triple env DispatcherThread (unread HOUSE_RENT_PERIOD) (mainLoader build)
    (fun _ => rented env) unrented.
Proof.
  unfold mainLoader.
  do 3 (apply triple_seq; [ stmt_with unfold_rent | ]).
  apply triple_seq; [ apply loadModules_rent | ].
  do 6 (apply triple_seq; [ stmt_with unfold_rent | ]).
  apply triple_cut with (J := rented env); [ stmt_with unfold_rent | ].
  repeat (apply triple_seq; [ stmt_with unfold_rent | ]). stmt_with unfold_rent.
Qed.

End Logic.

(** ** Facts on traces *)

Lemma notify_count_app l1 l2 :
  notify_count (l1 ++ l2) = (notify_count l1 + notify_count l2)%nat.
Proof.
  induction l1 as [| o l1 IH]; cbn [notify_count app]; [ reflexivity | ].
  rewrite IH. lia.
Qed.

Lemma notify_count_rev l : notify_count (rev l) = notify_count l.
Proof.
  induction l as [| o l IH]; cbn [rev notify_count]; [ reflexivity | ].
  rewrite notify_count_app, IH. cbn [notify_count]. lia.
Qed.

Lemma history_split t w pre o post :
  history t w = pre ++ o :: post -> ops t w = rev post ++ o :: rev pre.
Proof.
  unfold history. intros H.
  rewrite <- (rev_involutive (ops t w)), H, rev_app_distr.
  cbn [rev]. rewrite <- app_assoc. reflexivity.
Qed.

Lemma ops_split t w post o pre :
  ops t w = post ++ o :: pre -> history t w = rev pre ++ o :: rev post.
Proof.
  unfold history. intros ->. rewrite rev_app_distr. cbn [rev].
  rewrite <- app_assoc. reflexivity.
Qed.

Lemma existsb_history (f : op -> bool) t w :
  existsb f (history t w) = existsb f (ops t w).
Proof.
  unfold history. induction (ops t w) as [| o l IH]; cbn [rev existsb];
    [ reflexivity | ].
  rewrite existsb_app, IH. cbn [existsb]. rewrite orb_false_r, orb_comm.
  reflexivity.
Qed.

Lemma forallb_rev (f : op -> bool) l : forallb f (rev l) = forallb f l.
Proof.
  induction l as [| o l IH]; cbn [rev forallb]; [ reflexivity | ].
  rewrite forallb_app, IH. cbn [forallb]. rewrite andb_true_r, andb_comm.
  reflexivity.
Qed.

Lemma existsb_false_Forall (f : op -> bool) l :
  existsb f l = false -> Forall (fun o => f o = false) l.
Proof.
  induction l as [| o l IH]; cbn [existsb]; intros H; constructor.
  - apply orb_false_iff in H. tauto.
  - apply IH. apply orb_false_iff in H. tauto.
Qed.

Lemma In_reads_key k l :
  In (GetString k) l -> (k = WORLD_TYPE \/ k = HOUSE_RENT_PERIOD) ->
  existsb (reads_key k) l = true.
Proof.
  intros Hin Hk. apply existsb_exists. exists (GetString k). split; [ assumption | ].
  destruct Hk; subst; reflexivity.
Qed.

Section Watch.
Variable env : Env.

Lemma watch_not_clean o post pre :
  failing env o = true -> watch env (post ++ o :: pre) <> Clean.
Proof.
  intros Ho. induction post as [| x post IH]; cbn [app watch].
  - rewrite Ho. destruct (watch env pre); [ discriminate | | discriminate ].
    destruct (is_escalation o); discriminate.
  - destruct (watch env (post ++ o :: pre)); [ contradiction | | discriminate ].
    destruct (is_escalation x); discriminate.
Qed.

Lemma watch_after_failure o post pre :
  failing env o = true ->
  watch env (post ++ o :: pre) <> Violated ->
  forallb is_escalation post = true.
Proof.
  intros Ho. induction post as [| x post IH]; cbn [app watch forallb];
    [ reflexivity | ].
  pose proof (watch_not_clean o post pre Ho) as Hc.
  destruct (watch env (post ++ o :: pre)); [ contradiction | | contradiction ].
  destruct (is_escalation x); [ | contradiction ].
  intros _. apply IH. discriminate.
Qed.

Lemma watch_clean l o :
  watch env l = Clean -> In o l -> failing env o = false.
Proof.
  induction l as [| x l IH]; cbn [watch In]; [ contradiction | ].
  destruct (watch env l); [ | destruct (is_escalation x); discriminate | discriminate ].
  destruct (failing env x) eqn:Hx; [ discriminate | ].
  intros _ [<- | Hin]; [ assumption | apply IH; [ reflexivity | assumption ] ].
Qed.
End Watch.

(** ** The main thread *)

Section Main.
Variable env : Env.
Variable build : Build.

Lemma main_parks fs :
  run env MainThread (main build) (boot fs)
  = (Parked (main_decide), submitted env build fs).
Proof.
  unfold submitted, boot. autounfold with prog.
  destruct (DEBUG_LOG build), (OS_WINDOWS build); reflexivity.
Qed.

Lemma submitted_state fs :
  let w := submitted env build fs in
  loader_ready w /\ files w = fs /\ services w = [] /\ queue w = [MainLoaderTask]
  /\ waiters w = [MainThread]
  /\ g_dispatcher w = Running /\ g_scheduler w = Running
  /\ g_databaseTasks w = Stopped
  /\ worldType w = None /\ rentPeriod w = None
  /\ filter is_start (history MainThread w) = [Start G_dispatcher; Start G_scheduler].
Proof.
  unfold submitted, boot, loader_ready, history. autounfold with prog.
  destruct (DEBUG_LOG build), (OS_WINDOWS build); cbv; repeat split; reflexivity.
Qed.

Lemma main_wakes fs w :
  runnable MainThread w = true ->
  resume env MainThread (run env MainThread (main build) (boot fs)) w
  = run env MainThread main_decide w.
Proof.
  intros H. rewrite main_parks. unfold resume. cbn [fst]. rewrite H. reflexivity.
Qed.

Lemma main_decide_serving w :
  service_is_running (services w) = true ->
  exists w',
    run env MainThread main_decide w = (Returned 0, w')
    /\ exit_code w' = exit_code w
    /\ ops MainThread w'
       = Join G_dispatcher :: Join G_databaseTasks :: Join G_scheduler
         :: ServiceRun
         :: Log LInfo (cfg_string env SERVER_NAME +:+ " " +:+ "server online!")
         :: GetString SERVER_NAME :: IsRunning :: ops MainThread w.
Proof.
  intros H. destruct w as [f sv d sc db g wt r q ws e tr].
  autounfold with prog. sym_exec. cbv [service_is_running] in *.
  destruct sv; [ discriminate | ].
  eexists. repeat split.
Qed.

Lemma main_decide_offline w :
  service_is_running (services w) = false ->
  exists w',
    run env MainThread main_decide w = (Exited, w')
    /\ exit_code w' = Some (-1)
    /\ ops MainThread w'
       = Exit (-1) :: Shutdown G_dispatcher :: Shutdown G_databaseTasks
         :: Log LError "No services running. The server is NOT online!"
         :: IsRunning :: ops MainThread w.
Proof.
  intros H. destruct w as [f sv d sc db g wt r q ws e tr].
  autounfold with prog. sym_exec. cbv [service_is_running] in *.
  destruct sv; [ | discriminate ].
  eexists. repeat split.
Qed.

End Main.

(** ** The loader *)

Section Loader.
Variable env : Env.
Variable build : Build.

Lemma ready_sound w : loader_ready w -> sound (services w) w.
Proof. intros [He Ho]. unfold sound. rewrite He, Ho. repeat split. Qed.

Lemma ready_unfailed w : loader_ready w -> unfailed env w.
Proof. intros [He Ho]. unfold unfailed. rewrite He, Ho. repeat split. Qed.

Lemma ready_unread k w : loader_ready w -> unread k w.
Proof. intros [He Ho]. unfold unread. rewrite He, Ho. repeat split. Qed.

Lemma ready_db_idle w :
  loader_ready w -> g_databaseTasks w = Stopped -> db_idle true w.
Proof. intros [He Ho] Hs. unfold db_idle. rewrite He, Ho, Hs. repeat split. Qed.

Lemma escalated_history bound w :
  escalated bound w ->
  exists before,
    history DispatcherThread w
    = before ++ [error_notice; NotifyAll; GetChar; Exit (-1)]
    /\ notify_count before = 0%nat
    /\ Forall (fun o => is_service_add o = false) before.
Proof.
  intros (_ & _ & _ & rest & Hops & Hn & Hs).
  exists (rev rest). unfold history. rewrite Hops. cbn [rev].
  repeat rewrite <- app_assoc. cbn [app].
  split; [ reflexivity | ]. split.
  - rewrite notify_count_rev. assumption.
  - apply existsb_false_Forall. unfold is_true.
    rewrite <- Hs. clear. induction rest as [| o l IH]; cbn [rev existsb];
      [ reflexivity | ].
    rewrite existsb_app, IH. cbn [existsb]. rewrite orb_false_r, orb_comm.
    reflexivity.
Qed.

End Loader.

Lemma notify_in l : existsb is_notify l = true -> In NotifyAll l.
Proof.
  intros H. apply existsb_exists in H. destruct H as (o & Hin & Ho).
  destruct o; try discriminate. assumption.
Qed.

Lemma reads_key_in k l : existsb (reads_key k) l = true -> In (GetString k) l.
Proof.
  intros H. apply existsb_exists in H. destruct H as (o & Hin & Ho).
  destruct o; try discriminate. destruct k0, k; try discriminate; assumption.
Qed.

Lemma forallb_Forall (f : op -> bool) l :
  forallb f l = true -> Forall (fun o => f o = true) l.
Proof.
  induction l as [| o l IH]; cbn [forallb]; intros H; constructor.
  - apply andb_true_iff in H. tauto.
  - apply IH. apply andb_true_iff in H. tauto.
Qed.

(** ** The condition variable *)

Lemma tid_eqb_refl t : tid_eqb t t = true.
Proof. destruct t; reflexivity. Qed.

Lemma waiting_In t l : In t l -> existsb (tid_eqb t) l = true.
Proof.
  intros H. apply existsb_exists. exists t. split; [ assumption | apply tid_eqb_refl ].
Qed.

Lemma waiting_blocks t w :
  In t (waiters w) -> runnable t w = false.
Proof.
  intros H. unfold runnable. rewrite (waiting_In _ _ H).
  destruct (exit_code w); reflexivity.
Qed.

Lemma waiters_kept env u o w t :
  is_notify o = false -> In t (waiters w) -> In t (waiters (snd (exec env u o w))).
Proof.
  intros Ho Hin. destruct w as [f s d sc db g wt r q ws e tr].
  destruct o; try discriminate Ho;
    cbv [exec effect snd set_trace set_waiters set_exit_code set_worker
         set_queue set_services set_files set_gameState set_worldType
         set_rentPeriod waiters trace] in *;
    try assumption.
  right. assumption.
Qed.

Lemma deadlock_is_final build env s sched :
  deadlocked build env s -> sys_run build env sched s = s.
Proof.
  intros [_ H]. induction sched as [| t sched IH]; cbn [sys_run];
    [ reflexivity | ].
  rewrite (H t). assumption.
Qed.

(** ** More invariants of the loader *)


Ltac sym_exec ::=
  cbv beta iota zeta delta [run bind exec effect negb fst snd andb orb
       set_files set_services set_worker set_gameState set_worldType
       set_rentPeriod set_queue set_waiters set_exit_code set_trace
       files services g_dispatcher g_scheduler g_databaseTasks gameState
       worldType rentPeriod queue waiters exit_code trace worker_state
       ops thread_ops tid_eqb notify_count is_notify Nat.add existsb
       is_service_add is_escalation writes_file is_config_load reads_key
       watch failing mandatory error_notice is_db_start is_start
       worldType_of
       worker_start worker_shutdown worker_join worker_submit
       is_call is_NewScripts is_NewModules is_NewEvents is_NewImbuements
       created calls_after_scopes quiet_after_notify service_adds
       is_optimize is_custom_map three_adds registered register] in *.

Ltac stmt_with tac := block; tac; settle.

Section MoreLogic.
Variable env : Env.
Variable build : Build.

Ltac unfold_failed := unfold unfailed, failed in *.

Lemma loadModules_failed :
  triple env DispatcherThread (unfailed env) loadModules
    (fun _ => unfailed env) (failed env).
Proof.
  unfold loadModules.
  repeat (apply triple_seq; [ stmt_with unfold_failed | ]). stmt_with unfold_failed.
Qed.

Lemma mainLoader_failed :
  triple env DispatcherThread (unfailed env) (mainLoader build)
    (fun _ => unfailed env) (failed env).
Proof.
  unfold mainLoader.
  do 3 (apply triple_seq; [ stmt_with unfold_failed | ]).
  apply triple_seq; [ apply loadModules_failed | ].
  repeat (apply triple_seq; [ stmt_with unfold_failed | ]). stmt_with unfold_failed.
Qed.


Ltac unfold_state := unfold in_state, stuck_in, loader_ready in *.

Lemma loadModules_state :
  triple env DispatcherThread (in_state GAME_STATE_STARTUP) loadModules
    (fun _ => in_state GAME_STATE_STARTUP) (stuck_in GAME_STATE_STARTUP).
Proof.
  unfold loadModules.
  repeat (apply triple_seq; [ stmt_with unfold_state | ]). stmt_with unfold_state.
Qed.

Lemma mainLoader_state :
  triple env DispatcherThread loader_ready (mainLoader build)
    (fun _ => in_state GAME_STATE_NORMAL) (stuck_in GAME_STATE_STARTUP).
Proof.
  unfold mainLoader.
  apply triple_cut with (J := in_state GAME_STATE_STARTUP);
    [ stmt_with unfold_state | ].
  do 2 (apply triple_seq; [ stmt_with unfold_state | ]).
  apply triple_seq; [ apply loadModules_state | ].
  do 4 (apply triple_seq; [ stmt_with unfold_state | ]).
  apply triple_cut with (J := in_state GAME_STATE_INIT);
    [ stmt_with unfold_state | ].
  do 7 (apply triple_seq; [ stmt_with unfold_state | ]).
  apply triple_cut with (J := in_state GAME_STATE_NORMAL);
    [ stmt_with unfold_state | ].
  repeat (apply triple_seq; [ stmt_with unfold_state | ]). stmt_with unfold_state.
Qed.

Ltac unfold_guarded := unfold guarded in *.

Lemma loadModules_guarded :
  triple env DispatcherThread (guarded env) loadModules
    (fun _ => guarded env) (guarded env).
Proof.
  unfold loadModules.
  repeat (apply triple_seq; [ stmt_with unfold_guarded | ]). stmt_with unfold_guarded.
Qed.

Lemma mainLoader_guarded :
  triple env DispatcherThread (guarded env) (mainLoader build)
    (fun _ => guarded env) (guarded env).
Proof.
  unfold mainLoader.
  do 3 (apply triple_seq; [ stmt_with unfold_guarded | ]).
  apply triple_seq; [ apply loadModules_guarded | ].
  repeat (apply triple_seq; [ stmt_with unfold_guarded | ]). stmt_with unfold_guarded.
Qed.

Ltac unfold_scoped := unfold scoped in *.

Lemma loadModules_scoped :
  triple env DispatcherThread (scoped true) loadModules
    (fun _ => scoped true) (scoped true).
Proof.
  unfold loadModules.
  repeat (apply triple_seq; [ stmt_with unfold_scoped | ]). stmt_with unfold_scoped.
Qed.

Lemma mainLoader_scoped :
  triple env DispatcherThread (scoped false) (mainLoader build)
    (fun _ => scoped true) (scoped true).
Proof.
  unfold mainLoader.
  do 2 (apply triple_seq; [ stmt_with unfold_scoped | ]).
  apply triple_cut with (J := scoped true); [ stmt_with unfold_scoped | ].
  apply triple_seq; [ apply loadModules_scoped | ].
  repeat (apply triple_seq; [ stmt_with unfold_scoped | ]). stmt_with unfold_scoped.
Qed.

Ltac unfold_signalled := unfold unsignalled, signalled in *.

Lemma loadModules_signalled :
  triple env DispatcherThread unsignalled loadModules
    (fun _ => unsignalled) signalled.
Proof.
  unfold loadModules.
  repeat (apply triple_seq; [ stmt_with unfold_signalled | ]).
  stmt_with unfold_signalled.
Qed.

Lemma mainLoader_signalled :
  triple env DispatcherThread unsignalled (mainLoader build)
    (fun _ => signalled) signalled.
Proof.
  unfold mainLoader.
  do 3 (apply triple_seq; [ stmt_with unfold_signalled | ]).
  apply triple_seq; [ apply loadModules_signalled | ].
  repeat (apply triple_seq; [ stmt_with unfold_signalled | ]).
  stmt_with unfold_signalled.
Qed.

Ltac unfold_added := unfold added in *.

Lemma loadModules_added :
  triple env DispatcherThread (added []) loadModules
    (fun _ => added []) (added []).
Proof.
  unfold loadModules.
  repeat (apply triple_seq; [ stmt_with unfold_added | ]). stmt_with unfold_added.
Qed.

Lemma mainLoader_added :
  triple env DispatcherThread (added []) (mainLoader build)
    (fun _ => added (three_adds env)) (added []).
Proof.
  unfold mainLoader.
  do 3 (apply triple_seq; [ stmt_with unfold_added | ]).
  apply triple_seq; [ apply loadModules_added | ].
  do 5 (apply triple_seq; [ stmt_with unfold_added | ]).
  apply triple_cut with (J := added (three_adds env)); [ stmt_with unfold_added | ].
  repeat (apply triple_seq; [ stmt_with unfold_added | ]). stmt_with unfold_added.
Qed.

Ltac unfold_holds := unfold holds in *.

Lemma loadModules_holds l :
  triple env DispatcherThread (holds l) loadModules (fun _ => holds l) (holds l).
Proof.
  unfold loadModules.
  repeat (apply triple_seq; [ stmt_with unfold_holds | ]). stmt_with unfold_holds.
Qed.

Lemma mainLoader_holds l :
  triple env DispatcherThread (holds l) (mainLoader build)
    (fun _ => holds (registered env l)) (holds l).
Proof.
  unfold mainLoader.
  do 3 (apply triple_seq; [ stmt_with unfold_holds | ]).
  apply triple_seq; [ apply loadModules_holds | ].
  do 5 (apply triple_seq; [ stmt_with unfold_holds | ]).
  apply triple_cut with (J := holds (registered env l)); [ stmt_with unfold_holds | ].
  repeat (apply triple_seq; [ stmt_with unfold_holds | ]). stmt_with unfold_holds.
Qed.
End MoreLogic.

(** ** More facts on traces *)

Lemma watch_failed_exists env l :
  watch env l = Failed -> exists o, In o l /\ failing env o = true.
Proof.
  induction l as [| x l IH]; cbn [watch]; [ discriminate | ].
  destruct (watch env l) eqn:Hl.
  - destruct (failing env x) eqn:Hx; [ | discriminate ].
    intros _. exists x. split; [ left; reflexivity | assumption ].
  - intros _. destruct (IH eq_refl) as (o & Hin & Ho).
    exists o. split; [ right; assumption | assumption ].
  - discriminate.
Qed.

Lemma calls_after_scopes_split post s pre :
  calls_after_scopes (post ++ Call s :: pre) = true -> created pre = true.
Proof.
  induction post as [| x post IH]; cbn [app calls_after_scopes is_call];
    intros H; apply andb_true_iff in H; destruct H as [H1 H2].
  - assumption.
  - apply IH. assumption.
Qed.

Lemma created_In l :
  created l = true ->
  In (Extern NewScripts) l /\ In (Extern NewModules) l
  /\ In (Extern NewEvents) l /\ In (Extern NewImbuements) l.
Proof.
  unfold created. intros H.
  apply andb_true_iff in H. destruct H as [H H4].
  apply andb_true_iff in H. destruct H as [H H3].
  apply andb_true_iff in H. destruct H as [H1 H2].
  repeat split.
  - apply existsb_exists in H1. destruct H1 as (o & Hin & Ho).
    destruct o; try discriminate. destruct e; try discriminate. assumption.
  - apply existsb_exists in H2. destruct H2 as (o & Hin & Ho).
    destruct o; try discriminate. destruct e; try discriminate. assumption.
  - apply existsb_exists in H3. destruct H3 as (o & Hin & Ho).
    destruct o; try discriminate. destruct e; try discriminate. assumption.
  - apply existsb_exists in H4. destruct H4 as (o & Hin & Ho).
    destruct o; try discriminate. destruct e; try discriminate. assumption.
Qed.

Lemma quiet_after_notify_split post pre :
  quiet_after_notify (post ++ NotifyAll :: pre) = true ->
  forallb is_getchar_or_exit post = true.
Proof.
  induction post as [| x post IH]; cbn [app quiet_after_notify forallb];
    [ reflexivity | ].
  intros H. apply andb_true_iff in H. destruct H as [H1 H2].
  rewrite existsb_app in H1. cbn [existsb is_notify] in H1.
  rewrite orb_true_r in H1.
  apply andb_true_iff. split; [ | apply IH; assumption ].
  destruct x; try discriminate; reflexivity.
Qed.

Lemma service_adds_app l1 l2 :
  service_adds (l1 ++ l2) = service_adds l1 ++ service_adds l2.
Proof.
  induction l1 as [| o l1 IH]; cbn [app service_adds]; [ reflexivity | ].
  destruct o; try assumption. cbn [app]. rewrite IH. reflexivity.
Qed.

Lemma service_adds_rev l : service_adds (rev l) = rev (service_adds l).
Proof.
  induction l as [| o l IH]; cbn [rev service_adds]; [ reflexivity | ].
  rewrite service_adds_app, IH.
  destruct o; cbn [service_adds rev]; rewrite ?app_nil_r; reflexivity.
Qed.

Lemma to_uint16_range n : 0 <= to_uint16 n < 65536.
Proof. unfold to_uint16. apply Z.mod_pos_bound. lia. Qed.

(** ** The state in which the loader starts *)

Lemma ready_unsignalled w : loader_ready w -> unsignalled w.
Proof. intros [He Ho]. unfold unsignalled. rewrite Ho. split; reflexivity. Qed.

Lemma ready_scoped w : loader_ready w -> scoped false w.
Proof. intros [He Ho]. unfold scoped. rewrite Ho. split; reflexivity. Qed.

Lemma ready_guarded env w : loader_ready w -> guarded env w.
Proof. intros [He Ho]. unfold guarded. rewrite Ho. split; discriminate. Qed.

Lemma ready_added w : loader_ready w -> added [] w.
Proof. intros [He Ho]. unfold added. rewrite Ho. reflexivity. Qed.

(** ** Every interleaving *)

Lemma exits_with_bind {A B : Type} c (p : prog A) (f : A -> prog B) :
  exits_with c p -> (forall a, exits_with c (f a)) -> exits_with c (bind p f).
Proof.
  intros Hp Hf. induction p as [a | o k IH]; cbn [bind exits_with] in *.
  - apply Hf.
  - destruct Hp as [Ho Hk]. split; [ exact Ho | ].
    intros x. apply IH. apply Hk.
Qed.

Lemma returns_only_bind {A B : Type} (b : B) (p : prog A) (f : A -> prog B) :
  (forall a, returns_only b (f a)) -> returns_only b (bind p f).
Proof.
  intros Hf. induction p as [a | o k IH]; cbn [bind returns_only].
  - apply Hf.
  - intros x. apply IH.
Qed.

Ltac exits_walk :=
  repeat first
    [ progress cbn [exits_with bind]
    | progress intros
    | match goal with
      | |- _ /\ _ => split
      | |- True => exact I
      | |- _ = _ => reflexivity
      | |- exits_with _ (if ?b then _ else _) => destruct b
      | |- exits_with _ (match ?x with Some _ => _ | None => _ end) => destruct x
      | |- exits_with _ (bind _ _) => apply exits_with_bind
      | x : Empty_set |- _ => destruct x
      | x : ret_type (Exit _) |- _ => destruct x
      end ].

Section Exits.
Variable build : Build.

Lemma loadModules_exits : exits_with (-1) loadModules.
Proof. unfold loadModules. autounfold with prog. exits_walk. Qed.

Lemma mainLoader_exits : exits_with (-1) (mainLoader build).
Proof.
  unfold mainLoader.
  repeat (apply exits_with_bind; [ | intros _ ]);
    try apply loadModules_exits; autounfold with prog; exits_walk.
Qed.

Lemma main_exits : exits_with (-1) (main build).
Proof. autounfold with prog. exits_walk. Qed.

Lemma main_returns : returns_only 0 (main build).
Proof.
  unfold main. apply returns_only_bind. intros _.
  apply returns_only_bind. intros _.
  unfold main_decide. apply returns_only_bind. intros _.
  cbn. intros; reflexivity.
Qed.

End Exits.

Section Schedules.
Variable build : Build.
Variable env : Env.

Lemma exec_exit_code t o w :
  exit_code (snd (exec env t o w))
  = match o with Exit c => Some c | _ => exit_code w end.
Proof. destruct w as [f s d sc db g wt r q ws e tr]. destruct o; reflexivity. Qed.

Lemma step_exits {A : Type} c t (p p' : prog A) w w' :
  step env t p w = Some (p', w') ->
  exits_with c p ->
  exit_code w = None \/ exit_code w = Some c ->
  exits_with c p' /\ (exit_code w' = None \/ exit_code w' = Some c).
Proof.
  unfold step. destruct (runnable t w); [ | discriminate ].
  destruct p as [a | o k]; [ discriminate | ].
  intros Hs [Ho Hk] He. pose proof (exec_exit_code t o w) as Hx.
  destruct (exec env t o w) as [[x | x |] w1]; cbn [snd] in Hx;
    injection Hs as <- <-.
  - split; [ apply Hk | ]. rewrite Hx. destruct o; try exact He.
    right. rewrite Ho. reflexivity.
  - split; [ apply Hk | ]. rewrite Hx. destruct o; try exact He.
    right. rewrite Ho. reflexivity.
  - split; [ split; assumption | ]. rewrite Hx. destruct o; try exact He.
    right. rewrite Ho. reflexivity.
Qed.

Lemma step_returns {A : Type} (a : A) t (p p' : prog A) w w' :
  step env t p w = Some (p', w') -> returns_only a p -> returns_only a p'.
Proof.
  unfold step. destruct (runnable t w); [ | discriminate ].
  destruct p as [b | o k]; [ discriminate | ].
  intros Hs Hk. cbn [returns_only] in Hk.
  destruct (exec env t o w) as [[x | x |] w1]; injection Hs as <- <-.
  - apply Hk.
  - apply Hk.
  - exact Hk.
Qed.

Lemma power_on_well_coded fs : well_coded (power_on build fs).
Proof.
  unfold well_coded, power_on. cbn [at_main at_dispatcher world].
  split; [ apply main_exits | ]. split; [ exact I | ].
  split; [ apply main_returns | ]. left. reflexivity.
Qed.

Lemma sys_step_well_coded t s s' :
  sys_step build env t s = Some s' -> well_coded s -> well_coded s'.
Proof.
  intros Hs (Hm & Hd & Hr & He). destruct t; cbn [sys_step] in Hs.
  - destruct (step env MainThread (at_main s) (world s)) as [[p w] |] eqn:Hstep;
      [ | discriminate ].
    injection Hs as <-. unfold well_coded. cbn [at_main at_dispatcher world].
    destruct (step_exits _ _ _ _ _ _ Hstep Hm He) as [Hm' He'].
    repeat split; try assumption.
    apply (step_returns _ _ _ _ _ _ Hstep Hr).
  - destruct (at_dispatcher s) as [a | o k] eqn:Hp.
    + destruct (g_dispatcher (world s)); try discriminate.
      destruct (queue (world s)) as [| j q]; [ discriminate | ].
      destruct (runnable DispatcherThread (world s)); [ | discriminate ].
      injection Hs as <-. unfold well_coded. cbn [at_main at_dispatcher world].
      split; [ assumption | ].
      split; [ destruct j; apply mainLoader_exits | ].
      split; [ assumption | ].
      cbn [set_queue exit_code]. exact He.
    + destruct (step env DispatcherThread (Do o k) (world s)) as [[p w] |] eqn:Hstep;
        [ | discriminate ].
      injection Hs as <-. unfold well_coded. cbn [at_main at_dispatcher world].
      destruct (step_exits _ _ _ _ _ _ Hstep Hd He) as [Hd' He'].
      repeat split; assumption.
Qed.

Lemma sys_run_well_coded sched s :
  well_coded s -> well_coded (sys_run build env sched s).
Proof.
  revert s. induction sched as [| t sched IH]; intros s Hs; cbn [sys_run];
    [ exact Hs | ].
  destruct (sys_step build env t s) as [s' |] eqn:Hstep.
  - apply IH. apply (sys_step_well_coded _ _ _ Hstep Hs).
  - apply IH. exact Hs.
Qed.

End Schedules.

(** ** The script of the loader *)

Lemma all_ops_bind {A B : Type} f (p : prog A) (g : A -> prog B) :
  all_ops f p -> (forall a, all_ops f (g a)) -> all_ops f (bind p g).
Proof.
  intros Hp Hg. induction p as [a | o k IH]; cbn [bind all_ops] in *.
  - apply Hg.
  - destruct Hp as [Ho Hk]. split; [ exact Ho | ].
    intros x. apply IH. apply Hk.
Qed.

Ltac ops_walk :=
  repeat first
    [ progress cbn [all_ops bind]
    | progress intros
    | match goal with
      | |- _ /\ _ => split
      | |- True => exact I
      | |- _ = _ => reflexivity
      | |- all_ops _ (if ?b then _ else _) => destruct b
      | |- all_ops _ (match ?x with Some _ => _ | None => _ end) => destruct x
      | |- all_ops _ (bind _ _) => apply all_ops_bind
      | x : Empty_set |- _ => destruct x
      | x : ret_type (Exit _) |- _ => destruct x
      end ].

Lemma adds_at_most_mono {A : Type} n m (p : prog A) :
  (n <= m)%nat -> adds_at_most n p -> adds_at_most m p.
Proof.
  revert n m. induction p as [a | o k IH]; intros n m Hle; cbn [adds_at_most];
    [ trivial | ].
  destruct (is_addTask o).
  - destruct n as [| n]; [ contradiction | ].
    destruct m as [| m]; [ lia | ].
    intros H x. apply (IH x n m); [ lia | apply H ].
  - intros H x. apply (IH x n m); [ lia | apply H ].
Qed.

Section Script.
Variable build : Build.
Variable env : Env.

Lemma loadModules_submits_nothing :
  all_ops (fun o => negb (is_addTask o)) loadModules.
Proof. unfold loadModules. autounfold with prog. ops_walk. Qed.

Lemma mainLoader_submits_nothing :
  all_ops (fun o => negb (is_addTask o)) (mainLoader build).
Proof.
  unfold mainLoader.
  repeat (apply all_ops_bind; [ | intros _ ]);
    try apply loadModules_submits_nothing; autounfold with prog; ops_walk.
Qed.

Lemma main_keeps_view : all_ops keeps_view (main build).
Proof. autounfold with prog. ops_walk. Qed.

Lemma main_submits_once : adds_at_most 1 (main build).
Proof.
  autounfold with prog.
  destruct (DEBUG_LOG build), (OS_WINDOWS build); cbn; intros;
    repeat match goal with
           | |- context [if ?b then _ else _] => destruct b; cbn; intros
           | x : Empty_set |- _ => destruct x
           end; trivial.
Qed.

Lemma ops_exec t u o w :
  ops t (snd (exec env u o w)) = if tid_eqb t u then o :: ops t w else ops t w.
Proof. destruct w as [f s d sc db g wt r q ws e tr]. destruct o; reflexivity. Qed.

Lemma history_exec t o w :
  history t (snd (exec env t o w)) = history t w ++ [o].
Proof. unfold history. rewrite ops_exec, tid_eqb_refl. reflexivity. Qed.

Lemma history_exec_other o w :
  history DispatcherThread (snd (exec env MainThread o w))
  = history DispatcherThread w.
Proof. unfold history. rewrite ops_exec. reflexivity. Qed.

Lemma exec_view t u o w1 w2 :
  same_view w1 w2 ->
  fst (exec env t o w1) = fst (exec env u o w2)
  /\ same_view (snd (exec env t o w1)) (snd (exec env u o w2)).
Proof.
  destruct w1 as [f1 s1 d1 sc1 db1 g1 wt1 r1 q1 ws1 e1 tr1].
  destruct w2 as [f2 s2 d2 sc2 db2 g2 wt2 r2 q2 ws2 e2 tr2].
  unfold same_view. cbn [files services]. intros [-> ->].
  destruct o; split; try split; reflexivity.
Qed.

Lemma performed_view {A : Type} t (p : prog A) w1 w2 :
  same_view w1 w2 -> performed env t p w1 = performed env t p w2.
Proof.
  revert w1 w2. induction p as [a | o k IH]; intros w1 w2 Hv;
    cbn [performed]; [ reflexivity | ].
  f_equal. destruct (exec_view t t o w1 w2 Hv) as [Hr Hv'].
  destruct (exec env t o w1) as [r1 w1'], (exec env t o w2) as [r2 w2'].
  cbn [fst snd] in *. subst r2.
  destruct r1; [ apply IH | apply IH | reflexivity ]; exact Hv'.
Qed.

Lemma exec_keeps_view t o w :
  keeps_view o = true -> same_view (snd (exec env t o w)) w.
Proof.
  destruct w as [f s d sc db g wt r q ws e tr].
  destruct o; try discriminate; intros _; split; reflexivity.
Qed.

Lemma exec_queue t o w :
  is_addTask o = false -> queue (snd (exec env t o w)) = queue w.
Proof.
  destruct w as [f s d sc db g wt r q ws e tr].
  destruct o; try discriminate; reflexivity.
Qed.

Lemma exec_addTask t k w :
  queue (snd (exec env t (AddTask k) w)) = queue w
  \/ queue (snd (exec env t (AddTask k) w)) = queue w ++ [k].
Proof.
  destruct w as [f s d sc db g wt r q ws e tr].
  cbn. destruct d; auto.
Qed.

Lemma run_performed {A : Type} t (p : prog A) w :
  (forall k, fst (run env t p w) <> Parked k) ->
  history t (snd (run env t p w)) = history t w ++ performed env t p w.
Proof.
  revert w. induction p as [a | o k IH]; intros w Hn; cbn [run performed].
  - cbn [snd]. rewrite app_nil_r. reflexivity.
  - cbn [run] in Hn. pose proof (history_exec t o w) as Hh.
    destruct (exec env t o w) as [[x | x |] w']; cbn [snd] in *.
    + rewrite IH; [ | exact Hn ]. rewrite Hh, <- app_assoc. reflexivity.
    + exfalso. apply (Hn (k x)). reflexivity.
    + exact Hh.
Qed.

Lemma step_inv {A : Type} t (p p' : prog A) w w' :
  step env t p w = Some (p', w') ->
  exit_code w = None
  /\ exists o k,
       p = Do o k /\ w' = snd (exec env t o w)
       /\ ((exists x, (fst (exec env t o w) = Next x \/ fst (exec env t o w) = Park x)
                      /\ p' = k x)
           \/ (fst (exec env t o w) = Halt /\ p' = p)).
Proof.
  unfold step, runnable. destruct (exit_code w); [ discriminate | ].
  destruct (negb (existsb (tid_eqb t) (waiters w))); [ | discriminate ].
  destruct p as [a | o k]; [ discriminate | ].
  intros H. split; [ reflexivity | ]. exists o, k. split; [ reflexivity | ].
  destruct (exec env t o w) as [[x | x |] w1]; injection H as <- <-; cbn [fst snd].
  - split; [ reflexivity | ]. left. exists x. split; [ left | ]; reflexivity.
  - split; [ reflexivity | ]. left. exists x. split; [ right | ]; reflexivity.
  - split; [ reflexivity | ]. right. split; reflexivity.
Qed.

End Script.

(** ** The loader under every schedule *)

Section OnScript.
Variable build : Build.
Variable env : Env.
Variable fs : gmap string string.

Lemma same_view_trans w1 w2 w3 :
  same_view w1 w2 -> same_view w2 w3 -> same_view w1 w3.
Proof. intros [H1 H2] [H3 H4]. split; congruence. Qed.

Lemma same_view_sym w1 w2 : same_view w1 w2 -> same_view w2 w1.
Proof. intros [H1 H2]. split; congruence. Qed.

Lemma exec_halt t o w :
  fst (exec env t o w) = Halt -> exit_code (snd (exec env t o w)) <> None.
Proof.
  destruct w as [f s d sc db g wt r q ws e tr].
  destruct o; discriminate.
Qed.

Lemma power_on_on_script : on_script build env fs (power_on build fs).
Proof.
  split; [ apply main_keeps_view | ]. left.
  split; [ reflexivity | ]. split; [ reflexivity | ].
  split; [ split; reflexivity | ]. left.
  split; [ reflexivity | apply main_submits_once ].
Qed.

Lemma main_step_on_script s p w :
  step env MainThread (at_main s) (world s) = Some (p, w) ->
  on_script build env fs s ->
  on_script build env fs
    {| at_main := p; at_dispatcher := at_dispatcher s; world := w |}.
Proof.
  intros Hstep [Hkeep Hphase].
  destruct (step_inv env _ _ _ _ _ Hstep) as (Hlive & o & k & Hp & Hw & Hnext).
  rewrite Hp in Hkeep. cbn [all_ops] in Hkeep. destruct Hkeep as [Ho Hk].
  assert (Hview : same_view w (world s)) by (subst w; apply exec_keeps_view, Ho).
  assert (Hhist : history DispatcherThread w = history DispatcherThread (world s))
    by (subst w; apply history_exec_other).
  assert (Hkeep' : all_ops keeps_view p).
  { destruct Hnext as [(x & _ & ->) | (_ & ->)]; [ apply Hk | ].
    rewrite Hp. split; assumption. }
  split; [ exact Hkeep' | ]. unfold not_started, started.
  cbn [at_main at_dispatcher world].
  destruct Hphase as [(Hd & Hh & Hv & Hq) | (Hq & Hadd & Hdisp & rest & Hscript & Hrest)].
  - left. split; [ exact Hd | ]. split; [ rewrite Hhist; exact Hh | ].
    split; [ apply (same_view_trans _ _ _ Hview Hv) | ].
    rewrite Hp in Hq. cbn [adds_at_most] in Hq.
    destruct (is_addTask o) eqn:Hadd.
    + destruct o; try discriminate Hadd.
      destruct Hq as [[Hq Hm] | [_ []]].
      destruct Hnext as [(x & _ & ->) | (Hhalt & _)];
        [ | subst w; destruct (world s); discriminate Hhalt ].
      destruct (exec_addTask env MainThread t (world s)) as [Hsame | Happ];
        rewrite <- Hw in *.
      * left. split; [ congruence | ].
        apply (adds_at_most_mono 0 1); [ lia | apply Hm ].
      * right. split; [ rewrite Happ, Hq; destruct t; reflexivity | apply Hm ].
    + assert (Hqueue : queue w = queue (world s))
        by (subst w; apply exec_queue, Hadd).
      rewrite Hqueue.
      destruct Hnext as [(x & _ & ->) | (_ & ->)].
      * destruct Hq as [[Hq Hm] | [Hq Hm]]; [ left | right ];
          (split; [ exact Hq | apply Hm ]).
      * rewrite Hp. cbn [adds_at_most]. rewrite Hadd. exact Hq.
  - right. rewrite Hp in Hadd. cbn [adds_at_most] in Hadd.
    destruct (is_addTask o) eqn:Ha; [ contradiction | ].
    assert (Hqueue : queue w = queue (world s))
      by (subst w; apply exec_queue, Ha).
    split; [ congruence | ]. split.
    { destruct Hnext as [(x & _ & ->) | (_ & ->)]; [ apply Hadd | ].
      rewrite Hp. cbn [adds_at_most]. rewrite Ha. exact Hadd. }
    split; [ exact Hdisp | ]. exists rest. rewrite Hhist.
    split; [ exact Hscript | ]. intros _.
    rewrite (Hrest Hlive). apply performed_view. apply same_view_sym, Hview.
Qed.

Lemma dispatcher_step_on_script s p w :
  step env DispatcherThread (at_dispatcher s) (world s) = Some (p, w) ->
  on_script build env fs s ->
  on_script build env fs {| at_main := at_main s; at_dispatcher := p; world := w |}.
Proof.
  intros Hstep [Hkeep Hphase]. split; [ exact Hkeep | ].
  unfold not_started, started. cbn [at_main at_dispatcher world].
  destruct (step_inv env _ _ _ _ _ Hstep) as (Hlive & o & k & Hp & Hw & Hnext).
  destruct Hphase as [(Hd' & _) | (Hq & Hadd & Hdisp & rest & Hscript & Hrest)];
    [ congruence | ].
  right. rewrite Hp in Hdisp, Hrest. cbn [all_ops] in Hdisp.
  destruct Hdisp as [Ho Hk]. apply negb_true_iff in Ho.
  split; [ subst w; rewrite exec_queue; assumption | ].
  split; [ exact Hadd | ].
  split.
  { destruct Hnext as [(x & _ & ->) | (_ & ->)]; [ apply Hk | ].
    rewrite Hp. split; [ apply negb_true_iff, Ho | exact Hk ]. }
  specialize (Hrest Hlive). cbn [performed] in Hrest.
  pose proof (history_exec env DispatcherThread o (world s)) as Hh.
  pose proof (exec_halt DispatcherThread o (world s)) as Hhalt.
  rewrite <- Hw in Hh, Hhalt.
  exists (match exec env DispatcherThread o (world s) with
          | (Next x, w') | (Park x, w') => performed env DispatcherThread (k x) w'
          | (Halt, _) => []
          end).
  split.
  { rewrite Hscript, Hh, Hrest, <- app_assoc. reflexivity. }
  intros Hlive'.
  destruct (exec env DispatcherThread o (world s)) as [[x | x |] w1];
    cbn [fst snd] in *; subst w.
  - destruct Hnext as [(y & [E | E] & ->) | (E & _)]; try discriminate E.
    injection E as <-. reflexivity.
  - destruct Hnext as [(y & [E | E] & ->) | (E & _)]; try discriminate E.
    injection E as <-. reflexivity.
  - exfalso. apply Hhalt; [ reflexivity | exact Hlive' ].
Qed.

Lemma sys_step_on_script t s s' :
  sys_step build env t s = Some s' ->
  on_script build env fs s -> on_script build env fs s'.
Proof.
  unfold sys_step. intros Hstep Hinv. destruct t.
  - destruct (step env MainThread (at_main s) (world s)) as [[p w] |] eqn:E;
      [ | discriminate ].
    injection Hstep as <-. apply main_step_on_script; assumption.
  - destruct (at_dispatcher s) as [[] | o k] eqn:Hd.
    + destruct (g_dispatcher (world s)); try discriminate.
      destruct (queue (world s)) as [ | j q] eqn:Hq; [ discriminate | ].
      destruct (runnable DispatcherThread (world s)); [ | discriminate ].
      injection Hstep as <-. destruct Hinv as [Hkeep Hphase].
      split; [ exact Hkeep | ]. unfold not_started, started.
      cbn [at_main at_dispatcher world]. right.
      destruct Hphase as [(_ & Hh & Hv & Hcase) | (Hq' & _)]; [ | congruence ].
      destruct Hcase as [[Hq' _] | [Hq' Hadd]]; [ congruence | ].
      rewrite Hq in Hq'. injection Hq' as -> ->.
      split; [ reflexivity | ]. split; [ exact Hadd | ].
      split; [ apply mainLoader_submits_nothing | ].
      exists (loader_script build env fs).
      split.
      { destruct (world s); cbn in *. rewrite Hh. reflexivity. }
      intros _. apply performed_view.
      destruct Hv as [Hf Hs]. destruct (world s); split; cbn in *; congruence.
    + rewrite <- Hd in Hstep.
      destruct (step env DispatcherThread (at_dispatcher s) (world s))
        as [[p w] |] eqn:E; [ | discriminate ].
      injection Hstep as <-. apply dispatcher_step_on_script; assumption.
Qed.

Lemma sys_run_on_script sched s :
  on_script build env fs s -> on_script build env fs (sys_run build env sched s).
Proof.
  revert s. induction sched as [ | t sched IH]; intros s Hinv; cbn [sys_run];
    [ exact Hinv | ].
  destruct (sys_step build env t s) as [s' |] eqn:E.
  - apply IH. apply (sys_step_on_script _ _ _ E Hinv).
  - apply IH, Hinv.
Qed.

Lemma sequential_script :
  history DispatcherThread (snd (loaded env build fs)) = loader_script build env fs.
Proof.
  unfold loaded, loader_script.
  destruct (submitted_state env build fs) as (Hr & Hf & Hs & _).
  pose proof (mainLoader_sound env build _ _ (ready_sound _ Hr)) as H.
  rewrite run_performed.
  - destruct Hr as [_ Ho]. unfold history at 1. rewrite Ho. cbn [rev app].
    apply performed_view. split; [ exact Hf | exact Hs ].
  - intros k Hk.
    destruct (run env DispatcherThread (mainLoader build) (submitted env build fs))
      as [[a | k' |] w']; cbn [fst] in Hk; try discriminate Hk. exact H.
Qed.

Lemma sequential_notifies_once :
  notify_count (history DispatcherThread (snd (loaded env build fs))) = 1%nat.
Proof.
  unfold loaded.
  destruct (submitted_state env build fs) as (Hr & _).
  pose proof (mainLoader_sound env build _ _ (ready_sound _ Hr)) as H.
  unfold history. rewrite notify_count_rev.
  destruct (run env DispatcherThread (mainLoader build) (submitted env build fs))
    as [[a | k |] w']; cbn [snd].
  - destruct H as (_ & _ & rest & -> & Hn). cbn [notify_count is_notify].
    rewrite Hn. reflexivity.
  - contradiction.
  - destruct H as (_ & _ & _ & rest & -> & Hn & _).
    cbn [notify_count is_notify error_notice]. rewrite Hn. reflexivity.
Qed.

End OnScript.

(** ** Programs without [wait] and [exit] *)








(** ** The copy of the configuration *)

Section CopyStep.
Variable env : Env.
Variable build : Build.








(** What the stream operations of lines 323-336 leave of the files. *)
Lemma copyConfig_copies t w :
  files (snd (run env t mainLoader_copyConfig w)) = copied env (files w).
Proof.
  destruct w as [f s d sc db g wt r q ws e tr].
  unfold mainLoader_copyConfig, copied. autounfold with prog.
  cbn [bind run exec effect fst snd files set_files set_trace trace negb].
  destruct (ifstream_is_open env "./config.lua" f) eqn:Hc; cbn; [ reflexivity | ].
  destruct (ifstream_is_open env "./config.lua.dist" f) eqn:Hd; cbn; [ | reflexivity ].
  destruct (ofstream_is_open env "config.lua" f) eqn:Ho; cbn.
  - unfold ifstream_is_open in Hd. cbn [normalize] in Hd.
    unfold fs_copy, fs_truncate. cbn [normalize].
    destruct (f !! "config.lua.dist") as [dist |] eqn:Hdist; [ | discriminate Hd ].
    rewrite lookup_insert_ne by discriminate. rewrite Hdist.
    rewrite lookup_insert_eq, insert_insert_eq. reflexivity.
  - destruct (f !! "config.lua.dist"); reflexivity.
Qed.


End CopyStep.

(** ** Wake-ups without a notification *)

Lemma after_wait_none l : ~ In Wait l -> after_wait l = [].
Proof.
  induction l as [| o l IH]; cbn [after_wait In]; [ reflexivity | ].
  intros H. destruct o; try (apply IH; tauto). exfalso. apply H. left. reflexivity.
Qed.

Lemma after_wait_first l : ~ In Wait l -> after_wait (l ++ [Wait]) = [].
Proof.
  induction l as [| o l IH]; cbn [after_wait In app]; [ reflexivity | ].
  intros H. destruct o; try (apply IH; tauto). exfalso. apply H. left. reflexivity.
Qed.

Lemma after_wait_app l l' : In Wait l -> after_wait (l ++ l') = after_wait l ++ l'.
Proof.
  induction l as [| o l IH]; cbn [after_wait In app]; [ contradiction | ].
  intros [-> | H]; [ reflexivity | ].
  destruct o; try (apply IH, H). reflexivity.
Qed.

Lemma sys_play_steps build env sched s :
  sys_play build env (map Step sched) s = sys_run build env sched s.
Proof.
  revert s. induction sched as [| t sched IH]; intros s; cbn [map sys_play sys_run];
    [ reflexivity | ].
  cbn [sys_event]. destruct (sys_step build env t s); apply IH.
Qed.

Lemma notify_count_In l : In NotifyAll l -> (1 <= notify_count l)%nat.
Proof.
  induction l as [| o l IH]; cbn [In notify_count]; [ contradiction | ].
  intros [-> | H]; [ cbn [is_notify]; lia | ].
  specialize (IH H). lia.
Qed.

Lemma notify_count_none l :
  Forall (fun o => negb (is_notify o) = true) l -> notify_count l = 0%nat.
Proof.
  induction 1 as [| o l Ho _ IH]; cbn [notify_count]; [ reflexivity | ].
  apply negb_true_iff in Ho. rewrite Ho, IH. reflexivity.
Qed.

Section Events.
Variable build : Build.
Variable env : Env.
Variable fs : gmap string string.

Lemma step_runnable {A : Type} t (p p' : prog A) w w' :
  step env t p w = Some (p', w') -> runnable t w = true.
Proof. unfold step. destruct (runnable t w); [ reflexivity | discriminate ]. Qed.

Lemma history_other t u o w :
  tid_eqb t u = false -> history t (snd (exec env u o w)) = history t w.
Proof. intros H. unfold history. rewrite ops_exec, H. reflexivity. Qed.

(** One step of the process, seen from the histories and the waiters: the
    thread that steps, if it performs an operation, appends it to its
    history and leaves the history of the other as it is. *)
Lemma sys_step_inv t s s' :
  sys_step build env t s = Some s' ->
  runnable t (world s) = true
  /\ ((t = DispatcherThread /\ at_main s' = at_main s
       /\ trace (world s') = trace (world s)
       /\ waiters (world s') = waiters (world s))
      \/ exists o,
           world s' = snd (exec env t o (world s))
           /\ match t with
              | MainThread =>
                  at_dispatcher s' = at_dispatcher s
                  /\ exists k, at_main s = Do o k
                               /\ (at_main s' = at_main s \/ exists x, at_main s' = k x)
              | DispatcherThread => at_main s' = at_main s
              end).
Proof.
  unfold sys_step. destruct t.
  - destruct (step env MainThread (at_main s) (world s)) as [[p w] |] eqn:E;
      [ | discriminate ].
    intros H. injection H as <-. cbn [at_main at_dispatcher world].
    split; [ apply (step_runnable _ _ _ _ _ E) | ]. right.
    destruct (step_inv env _ _ _ _ _ E) as (_ & o & k & Hp & Hw & Hnext).
    exists o. split; [ exact Hw | ]. split; [ reflexivity | ].
    exists k. split; [ exact Hp | ].
    destruct Hnext as [(x & _ & ->) | (_ & ->)]; [ right; eauto | left; reflexivity ].
  - destruct (at_dispatcher s) as [[] | o k] eqn:Hd.
    + destruct (g_dispatcher (world s)); try discriminate.
      destruct (queue (world s)) as [| j q]; [ discriminate | ].
      destruct (runnable DispatcherThread (world s)) eqn:Hrun; [ | discriminate ].
      intros H. injection H as <-. cbn [at_main at_dispatcher world].
      split; [ reflexivity | ]. left.
      destruct (world s); repeat split; reflexivity.
    + destruct (step env DispatcherThread (Do o k) (world s)) as [[p w] |] eqn:E;
        [ | discriminate ].
      intros H. injection H as <-. cbn [at_main at_dispatcher world].
      split; [ apply (step_runnable _ _ _ _ _ E) | ]. right.
      destruct (step_inv env _ _ _ _ _ E) as (_ & o' & k' & _ & Hw & _).
      exists o'. split; [ exact Hw | reflexivity ].
Qed.

Lemma history_trace t w w' : trace w' = trace w -> history t w' = history t w.
Proof. unfold history, ops. intros ->. reflexivity. Qed.

Lemma wake_on_script t s :
  on_script build env fs s ->
  on_script build env fs
    {| at_main := at_main s; at_dispatcher := at_dispatcher s;
       world := wake t (world s) |}.
Proof.
  intros [Hkeep Hphase]. split; [ exact Hkeep | ].
  unfold not_started, started in *. cbn [at_main at_dispatcher world].
  assert (Hv : same_view (wake t (world s)) (world s))
    by (destruct (world s); split; reflexivity).
  assert (Hh : history DispatcherThread (wake t (world s))
               = history DispatcherThread (world s))
    by (destruct (world s); reflexivity).
  assert (Hq : queue (wake t (world s)) = queue (world s))
    by (destruct (world s); reflexivity).
  assert (He : exit_code (wake t (world s)) = exit_code (world s))
    by (destruct (world s); reflexivity).
  rewrite Hh, Hq, He.
  destruct Hphase as [(Hd & Hn & Hs & Hc) | (Hc & Hadd & Hdisp & rest & Hscript & Hrest)].
  - left. repeat split; try assumption; destruct Hv as [H1 H2], Hs as [H3 H4];
      congruence.
  - right. repeat split; try assumption. exists rest. split; [ exact Hscript | ].
    intros Hlive. rewrite (Hrest Hlive). apply performed_view.
    destruct Hv as [H1 H2]. split; congruence.
Qed.

Lemma sys_event_on_script e s s' :
  sys_event build env e s = Some s' ->
  on_script build env fs s -> on_script build env fs s'.
Proof.
  destruct e as [t | t]; cbn [sys_event].
  - apply sys_step_on_script.
  - destruct (existsb (tid_eqb t) (waiters (world s))); [ | discriminate ].
    intros H. injection H as <-. apply wake_on_script.
Qed.

Lemma sys_play_on_script evs s :
  on_script build env fs s -> on_script build env fs (sys_play build env evs s).
Proof.
  revert s. induction evs as [| e evs IH]; intros s Hinv; cbn [sys_play];
    [ exact Hinv | ].
  destruct (sys_event build env e s) as [s' |] eqn:E.
  - apply IH. apply (sys_event_on_script _ _ _ E Hinv).
  - apply IH, Hinv.
Qed.

(** The dispatcher thread notifies at most once, wake-ups or not. *)
Lemma on_script_notifies_once s :
  on_script build env fs s ->
  (notify_count (history DispatcherThread (world s)) <= 1)%nat.
Proof.
  intros [_ [(_ & Hh & _) | (_ & _ & _ & rest & Hscript & _)]].
  - rewrite Hh. cbn [notify_count]. lia.
  - pose proof (sequential_notifies_once build env fs) as H.
    rewrite sequential_script, Hscript, notify_count_app in H. lia.
Qed.

(** What the main thread has done is made of operations of [main]. *)
Lemma sys_event_main_ops (f : op -> bool) e s s' :
  sys_event build env e s = Some s' ->
  all_ops f (at_main s) ->
  Forall (fun o => f o = true) (history MainThread (world s)) ->
  all_ops f (at_main s')
  /\ Forall (fun o => f o = true) (history MainThread (world s')).
Proof.
  destruct e as [t | t]; cbn [sys_event].
  - intros Hstep Hp Hh.
    destruct (sys_step_inv _ _ _ Hstep)
      as (_ & [(_ & Hm & Htr & _) | (o & Hw & Hrest)]).
    + rewrite Hm, (history_trace _ _ _ Htr). split; assumption.
    + destruct t.
      * destruct Hrest as (_ & k & Hk & Hnext). rewrite Hk in Hp.
        cbn [all_ops] in Hp. destruct Hp as [Ho Hp].
        rewrite Hw, history_exec. split.
        -- destruct Hnext as [-> | (x & ->)]; [ | apply Hp ].
           rewrite Hk. split; assumption.
        -- apply Forall_app. split; [ exact Hh | ]. constructor; [ exact Ho | constructor ].
      * rewrite Hrest, Hw, history_other by reflexivity. split; assumption.
  - destruct (existsb (tid_eqb t) (waiters (world s))); [ | discriminate ].
    intros H. injection H as <-. cbn [at_main world]. intros Hp Hh.
    split; [ exact Hp | ].
    replace (history MainThread (wake t (world s)))
      with (history MainThread (world s)) by (destruct (world s); reflexivity).
    exact Hh.
Qed.

Lemma main_never_notifies :
  all_ops (fun o => negb (is_notify o)) (main build).
Proof. autounfold with prog. ops_walk. Qed.

Lemma sys_play_main_ops (f : op -> bool) evs s :
  all_ops f (at_main s) ->
  Forall (fun o => f o = true) (history MainThread (world s)) ->
  Forall (fun o => f o = true)
    (history MainThread (world (sys_play build env evs s))).
Proof.
  revert s. induction evs as [| e evs IH]; intros s Hp Hh; cbn [sys_play];
    [ exact Hh | ].
  destruct (sys_event build env e s) as [s' |] eqn:E.
  - destruct (sys_event_main_ops f _ _ _ E Hp Hh). apply IH; assumption.
  - apply IH; assumption.
Qed.

(** [main] inspects the service manager only after its [wait]. *)
Lemma main_waits_first : waits_first (main build).
Proof.
  autounfold with prog.
  destruct (DEBUG_LOG build), (OS_WINDOWS build); cbn; intros; exact I.
Qed.

Lemma sys_event_reads_late e s s' :
  sys_event build env e s = Some s' ->
  (waits_first (at_main s)
   /\ ~ In Wait (history MainThread (world s))
   /\ ~ In IsRunning (history MainThread (world s)))
  \/ (In Wait (history MainThread (world s))
      /\ (In IsRunning (history MainThread (world s)) ->
          In IsRunning (after_wait (history MainThread (world s))))) ->
  (waits_first (at_main s')
   /\ ~ In Wait (history MainThread (world s'))
   /\ ~ In IsRunning (history MainThread (world s')))
  \/ (In Wait (history MainThread (world s'))
      /\ (In IsRunning (history MainThread (world s')) ->
          In IsRunning (after_wait (history MainThread (world s'))))).
Proof.
  destruct e as [t | t]; cbn [sys_event].
  - intros Hstep Hinv.
    destruct (sys_step_inv _ _ _ Hstep)
      as (_ & [(_ & Hm & Htr & _) | (o & Hw & Hrest)]).
    + rewrite Hm, !(history_trace MainThread _ _ Htr). exact Hinv.
    + destruct t.
      * destruct Hrest as (_ & k & Hk & Hnext). rewrite Hw, history_exec.
        destruct Hinv as [(Hp & Hnw & Hnr) | (Hin & Hr)].
        -- rewrite Hk in Hp. destruct (is_wait o) eqn:Ho.
           ++ destruct o; try discriminate Ho. right. split.
              ** apply in_or_app. right. left. reflexivity.
              ** intros H. apply in_app_or in H.
                 destruct H as [H | [H | []]]; [ tauto | discriminate H ].
           ++ left. split; [ | split ].
              ** destruct Hnext as [-> | (x & ->)].
                 --- rewrite Hk. exact Hp.
                 --- destruct o; try discriminate Ho; try contradiction;
                       apply Hp.
              ** intros H. apply in_app_or in H.
                 destruct H as [H | [-> | []]]; [ tauto | discriminate Ho ].
              ** intros H. apply in_app_or in H.
                 destruct H as [H | [-> | []]]; [ tauto | ].
                 cbn [waits_first] in Hp. exact Hp.
        -- right. split; [ apply in_or_app; left; exact Hin | ].
           rewrite (after_wait_app _ [o] Hin).
           intros H. apply in_or_app. apply in_app_or in H.
           destruct H as [H | H]; [ left; apply Hr, H | right; exact H ].
      * rewrite Hrest, Hw, !history_other by reflexivity. exact Hinv.
  - destruct (existsb (tid_eqb t) (waiters (world s))); [ | discriminate ].
    intros H. injection H as <-. cbn [at_main world].
    replace (history MainThread (wake t (world s)))
      with (history MainThread (world s)) by (destruct (world s); reflexivity).
    trivial.
Qed.

Lemma main_reads_after_wait evs :
  In IsRunning
     (history MainThread (world (sys_play build env evs (power_on build fs)))) ->
  after_wait
    (history MainThread (world (sys_play build env evs (power_on build fs)))) <> [].
Proof.
  assert (H : forall s,
    (waits_first (at_main s)
     /\ ~ In Wait (history MainThread (world s))
     /\ ~ In IsRunning (history MainThread (world s)))
    \/ (In Wait (history MainThread (world s))
        /\ (In IsRunning (history MainThread (world s)) ->
            In IsRunning (after_wait (history MainThread (world s))))) ->
    In IsRunning (history MainThread (world (sys_play build env evs s))) ->
    after_wait (history MainThread (world (sys_play build env evs s))) <> []).
  { induction evs as [| e evs IH]; intros s Hinv; cbn [sys_play].
    - destruct Hinv as [(_ & _ & Hnr) | (_ & Hr)]; intros Hin; [ tauto | ].
      specialize (Hr Hin). intros E. rewrite E in Hr. exact Hr.
    - destruct (sys_event build env e s) as [s' |] eqn:E; [ | apply IH, Hinv ].
      apply IH. apply (sys_event_reads_late _ _ _ E Hinv). }
  apply H. left. split; [ apply main_waits_first | ]. split; intros [].
Qed.

(** Without wake-ups: a main thread that has begun to wait has done nothing
    since, unless the dispatcher thread has notified. *)
Lemma sys_step_patient t s s' :
  sys_step build env t s = Some s' ->
  patient s -> patient s'.
Proof.
  intros Hstep Hinv.
  destruct (sys_step_inv _ _ _ Hstep)
    as (Hrun & [(_ & _ & Htr & Hws) | (o & Hw & Hrest)]).
  - unfold patient in *. rewrite !(history_trace _ _ _ Htr), Hws. exact Hinv.
  - unfold patient in *. destruct t.
    + rewrite Hw, history_exec, history_other by reflexivity.
      destruct Hinv as [Hno | [[Hin _] | Hn]].
      * destruct (is_wait o) eqn:Ho.
        -- destruct o; try discriminate Ho. right. left. split.
           ++ destruct (world s). left. reflexivity.
           ++ apply after_wait_first, Hno.
        -- left. intros Hin. apply in_app_or in Hin.
           destruct Hin as [Hin | [-> | []]]; [ tauto | discriminate Ho ].
      * rewrite (waiting_blocks _ _ Hin) in Hrun. discriminate Hrun.
      * right. right. exact Hn.
    + rewrite Hw, history_exec, history_other by reflexivity.
      destruct Hinv as [Hno | [[Hin Ha] | Hn]].
      * left. exact Hno.
      * destruct (is_notify o) eqn:Ho.
        -- destruct o; try discriminate Ho. right. right.
           apply in_or_app. right. left. reflexivity.
        -- right. left. split; [ apply waiters_kept; assumption | exact Ha ].
      * right. right. apply in_or_app. left. exact Hn.
Qed.

Lemma sys_run_patient sched s :
  patient s -> patient (sys_run build env sched s).
Proof.
  revert s. induction sched as [| t sched IH]; intros s Hinv; cbn [sys_run];
    [ exact Hinv | ].
  destruct (sys_step build env t s) as [s' |] eqn:E.
  - apply IH. apply (sys_step_patient _ _ _ E Hinv).
  - apply IH, Hinv.
Qed.

(** A main thread that waits after the notification stays where it is as
    long as no wake-up occurs: the dispatcher thread will not notify again. *)
Lemma sys_step_late t s s' :
  sys_step build env t s = Some s' ->
  on_script build env fs s ->
  In MainThread (waiters (world s)) ->
  In NotifyAll (history DispatcherThread (world s)) ->
  In MainThread (waiters (world s'))
  /\ In NotifyAll (history DispatcherThread (world s'))
  /\ at_main s' = at_main s
  /\ history MainThread (world s') = history MainThread (world s).
Proof.
  intros Hstep Hscript Hin Hn.
  pose proof (on_script_notifies_once _ (sys_step_on_script _ _ _ _ _ _ Hstep Hscript))
    as Honce.
  destruct (sys_step_inv _ _ _ Hstep)
    as (Hrun & [(_ & Hm & Htr & Hws) | (o & Hw & Hrest)]).
  - rewrite !(history_trace _ _ _ Htr), Hws. repeat split; assumption.
  - destruct t.
    + rewrite (waiting_blocks _ _ Hin) in Hrun. discriminate Hrun.
    + rewrite Hw, history_exec in Honce. rewrite Hw, history_exec.
      rewrite history_other by reflexivity.
      rewrite notify_count_app in Honce. cbn [notify_count] in Honce.
      pose proof (notify_count_In _ Hn) as H1.
      assert (Ho : is_notify o = false)
        by (destruct (is_notify o); [ lia | reflexivity ]).
      split; [ apply waiters_kept; assumption | ].
      split; [ apply in_or_app; left; exact Hn | ].
      split; [ exact Hrest | reflexivity ].
Qed.

Lemma sys_run_late sched s :
  on_script build env fs s ->
  In MainThread (waiters (world s)) ->
  In NotifyAll (history DispatcherThread (world s)) ->
  at_main (sys_run build env sched s) = at_main s
  /\ history MainThread (world (sys_run build env sched s))
     = history MainThread (world s).
Proof.
  revert s. induction sched as [| t sched IH]; intros s Hscript Hin Hn;
    cbn [sys_run]; [ split; reflexivity | ].
  destruct (sys_step build env t s) as [s' |] eqn:E; [ | apply IH; assumption ].
  destruct (sys_step_late _ _ _ E Hscript Hin Hn) as (Hin' & Hn' & Hm & Hh).
  rewrite <- Hm, <- Hh. apply IH; try assumption.
  apply (sys_step_on_script _ _ _ _ _ _ E Hscript).
Qed.

(** The main thread wakes up without a notification before the dispatcher
    thread has taken the loader: it finds no service and ends the process. *)
Lemma early_wake_gives_up :
  exit_code (world (sys_play build env early_wake (power_on build fs))) = Some (-1)
  /\ history DispatcherThread (world (sys_play build env early_wake (power_on build fs)))
     = []
  /\ after_wait
       (history MainThread (world (sys_play build env early_wake (power_on build fs))))
     = [IsRunning; Log LError "No services running. The server is NOT online!";
        Shutdown G_databaseTasks; Shutdown G_dispatcher; Exit (-1)].
Proof.
  unfold early_wake, power_on, boot, history. autounfold with prog.
  destruct (DEBUG_LOG build), (OS_WINDOWS build); cbv; repeat split; reflexivity.
Qed.

End Events.

(** * The claims *)

(** C1 (as the code has it).  Whenever the loader ends the process, that is
    on every mandatory-stage failure, [startupErrorMessage] has invoked
    [notify_all] exactly once, after the notice to the operator and before
    the keystroke read and [exit(-1)]: the waiters of the condition variable
    are released by the failure path too.  Control never returns to the
    pipeline: [exit(-1)] is the last operation of the dispatcher thread. *)
Theorem failure_path_notifies_then_exits env build w0 w' :
  loader_ready w0 ->
  run env DispatcherThread (mainLoader build) w0 = (Exited, w') ->
  exit_code w' = Some (-1) /\ waiters w' = [] /\
  exists before,
    history DispatcherThread w'
    = before ++ [error_notice; NotifyAll; GetChar; Exit (-1)]
    /\ notify_count before = 0%nat.
Proof.
  intros Hr Hrun.
  pose proof (mainLoader_sound env build _ w0 (ready_sound w0 Hr)) as H.
  rewrite Hrun in H.
  destruct (escalated_history _ _ H) as (before & Hh & Hn & _).
  destruct H as (He & Hw & _).
  repeat split; try assumption. exists before. split; assumption.
Qed.

Lemma failure_path_notifies_then_exits_witness :
  exit_code (snd (loaded env_no_config build0 fs_dist)) = Some (-1) /\
  waiters (snd (loaded env_no_config build0 fs_dist)) = [] /\
  exists before,
    history DispatcherThread (snd (loaded env_no_config build0 fs_dist))
    = before ++ [error_notice; NotifyAll; GetChar; Exit (-1)]
    /\ notify_count before = 0%nat.
Proof.
  apply (failure_path_notifies_then_exits env_no_config build0
           (submitted env_no_config build0 fs_dist)).
  - split; vm_compute; reflexivity.
  - vm_compute. reflexivity.
Defined.

(** C1 (as stated) fails: when [g_configManager().load()] fails, a mandatory
    stage, the loader ends the process and [notify_all] is in what the
    dispatcher thread did; the main thread, which was waiting, is released
    although the pipeline did not succeed. *)
Lemma failure_path_signals_the_handshake :
  stage_ok env_no_config ConfigLoad = false /\
  fst (loaded env_no_config build0 fs_dist) = Exited /\
  In NotifyAll (history DispatcherThread (snd (loaded env_no_config build0 fs_dist))) /\
  waiters (submitted env_no_config build0 fs_dist) = [MainThread] /\
  waiters (snd (loaded env_no_config build0 fs_dist)) = [].
Proof.
  split; [ reflexivity | ]. split; [ vm_compute; reflexivity | ].
  split; [ | split; vm_compute; reflexivity ].
  apply notify_in. vm_compute. reflexivity.
Qed.

(** C8.  When a mandatory stage fails (a mandatory loader reports failure,
    or the world type read from the configuration is none of the three
    accepted), everything the dispatcher thread does afterwards belongs to
    the error report and to [startupErrorMessage]: no stage of the pipeline
    follows, the loader does not return and the process exits with -1. *)
Theorem mandatory_failure_stops_pipeline env build w0 pre o post :
  loader_ready w0 ->
  history DispatcherThread (snd (run env DispatcherThread (mainLoader build) w0))
  = pre ++ o :: post ->
  (exists s, o = Call s /\ mandatory s = true /\ stage_ok env s = false)
  \/ (o = GetString WORLD_TYPE
      /\ worldType_of (asLowerCaseString (cfg_string env WORLD_TYPE)) = None) ->
  fst (run env DispatcherThread (mainLoader build) w0) = Exited /\
  exit_code (snd (run env DispatcherThread (mainLoader build) w0)) = Some (-1) /\
  Forall (fun x => is_escalation x = true) post.
Proof.
  intros Hr Hh Ho.
  assert (Hf : failing env o = true).
  { destruct Ho as [(s & -> & Hm & Hs) | (-> & Hw)]; cbn [failing].
    - rewrite Hm, Hs. reflexivity.
    - rewrite Hw. reflexivity. }
  pose proof (mainLoader_watch env build w0 (ready_unfailed env w0 Hr)) as H.
  destruct (run env DispatcherThread (mainLoader build) w0) as [[[] | k |] w'];
    cbn [fst snd] in *.
  - destruct H as [_ Hc]. apply history_split in Hh.
    rewrite (watch_clean env _ o Hc) in Hf; [ discriminate | ].
    rewrite Hh. apply in_or_app. right. left. reflexivity.
  - contradiction.
  - destruct H as [He Hv]. repeat split; try assumption.
    apply history_split in Hh. rewrite Hh in Hv.
    apply forallb_Forall. rewrite <- forallb_rev.
    apply (watch_after_failure env o _ _ Hf Hv).
Qed.

Lemma mandatory_failure_stops_pipeline_witness :
  fst (loaded env_no_map build0 fs_dist) = Exited /\
  exit_code (snd (loaded env_no_map build0 fs_dist)) = Some (-1) /\
  Forall (fun x => is_escalation x = true)
    [Log LError "Failed to load map"; error_notice; NotifyAll; GetChar; Exit (-1)].
Proof.
  apply (mandatory_failure_stops_pipeline env_no_map build0
           (submitted env_no_map build0 fs_dist)
           (firstn 74 (history DispatcherThread (snd (loaded env_no_map build0 fs_dist))))
           (Call (LoadMainMap "canary"))).
  - split; vm_compute; reflexivity.
  - vm_compute. reflexivity.
  - left. exists (LoadMainMap "canary"). repeat split.
Defined.

(** C4.  The status of the process is 0 when the main thread, once woken,
    finds a service running (it serves, joins the workers and returns 0) and
    -1 when it finds none; the loader, for its part, either returns with the
    process alive and no mandatory stage failed, or ends the process with -1,
    which it does whenever a mandatory stage fails. *)
Theorem process_exit_codes env build fs w w0 :
  runnable MainThread w = true ->
  loader_ready w0 ->
  exit_status (resume env MainThread (run env MainThread (main build) (boot fs)) w)
  = Some (if service_is_running (services w) then 0 else -1)
  /\ match run env DispatcherThread (mainLoader build) w0 with
     | (Returned _, w') =>
         exit_code w' = None
         /\ forall o, In o (history DispatcherThread w') -> failing env o = false
     | (Parked _, _) => False
     | (Exited, w') => exit_code w' = Some (-1)
     end.
Proof.
  intros Hw Hr. split.
  - rewrite (main_wakes env build fs w Hw). unfold exit_status.
    destruct (service_is_running (services w)) eqn:Hs.
    + destruct (main_decide_serving env w Hs) as (w' & -> & _). reflexivity.
    + destruct (main_decide_offline env w Hs) as (w' & -> & He & _). exact He.
  - pose proof (mainLoader_watch env build w0 (ready_unfailed env w0 Hr)) as H.
    destruct (run env DispatcherThread (mainLoader build) w0) as [[a | k |] w'].
    + destruct H as [He Hc]. split; [ assumption | ].
      intros o Hin. apply (watch_clean env _ o Hc).
      unfold history in Hin. apply in_rev in Hin. assumption.
    + assumption.
    + destruct H as [He _]. assumption.
Qed.

Lemma process_exit_codes_witness :
  exit_status
    (resume env_ports_busy MainThread
       (run env_ports_busy MainThread (main build0) (boot fs_dist))
       (snd (loaded env_ports_busy build0 fs_dist)))
  = Some (if service_is_running (services (snd (loaded env_ports_busy build0 fs_dist)))
          then 0 else -1)
  /\ match run env_ports_busy DispatcherThread (mainLoader build0)
             (submitted env_ports_busy build0 fs_dist) with
     | (Returned _, w') =>
         exit_code w' = None
         /\ forall o, In o (history DispatcherThread w') ->
                      failing env_ports_busy o = false
     | (Parked _, _) => False
     | (Exited, w') => exit_code w' = Some (-1)
     end.
Proof.
  apply (process_exit_codes env_ports_busy build0 fs_dist
           (snd (loaded env_ports_busy build0 fs_dist))
           (submitted env_ports_busy build0 fs_dist)).
  - vm_compute. reflexivity.
  - split; vm_compute; reflexivity.
Defined.

(** C5.  The world type is read from the configuration and lower-cased
    before it is compared, so it is interpreted case-insensitively, and
    exactly three values are accepted.  Once the pipeline has read it, "pvp"
    has set the PVP mode, "no-pvp" the no-PVP mode and "pvp-enforced" the
    enforced-PVP mode, and such a value is no fatal error: if the loader ends
    the process then a mandatory loader call has failed, and if none fails
    the loader returns with the mode set.  With any other value the loader
    does not return, the process exits with -1 and no service is bound: the
    set of services is what it was and [add] is never called; when no
    mandatory loader call fails the pipeline does reach the reading of the
    world type. *)
Theorem world_type_selection env build w0 :
  loader_ready w0 ->
  (In (GetString WORLD_TYPE)
      (history DispatcherThread (snd (run env DispatcherThread (mainLoader build) w0))) ->
   (asLowerCaseString (cfg_string env WORLD_TYPE) = "pvp" ->
    worldType (snd (run env DispatcherThread (mainLoader build) w0))
    = Some WORLD_TYPE_PVP)
   /\ (asLowerCaseString (cfg_string env WORLD_TYPE) = "no-pvp" ->
       worldType (snd (run env DispatcherThread (mainLoader build) w0))
       = Some WORLD_TYPE_NO_PVP)
   /\ (asLowerCaseString (cfg_string env WORLD_TYPE) = "pvp-enforced" ->
       worldType (snd (run env DispatcherThread (mainLoader build) w0))
       = Some WORLD_TYPE_PVP_ENFORCED))
  /\ (asLowerCaseString (cfg_string env WORLD_TYPE) <> "pvp" ->
      asLowerCaseString (cfg_string env WORLD_TYPE) <> "no-pvp" ->
      asLowerCaseString (cfg_string env WORLD_TYPE) <> "pvp-enforced" ->
      fst (run env DispatcherThread (mainLoader build) w0) = Exited
      /\ exit_code (snd (run env DispatcherThread (mainLoader build) w0)) = Some (-1)
      /\ services (snd (run env DispatcherThread (mainLoader build) w0)) = services w0
      /\ Forall (fun o => is_service_add o = false)
           (history DispatcherThread (snd (run env DispatcherThread (mainLoader build) w0)))
      /\ ((forall s, mandatory s = true -> stage_ok env s = true) ->
          In (GetString WORLD_TYPE)
             (history DispatcherThread
                (snd (run env DispatcherThread (mainLoader build) w0)))))
  /\ (asLowerCaseString (cfg_string env WORLD_TYPE) = "pvp"
      \/ asLowerCaseString (cfg_string env WORLD_TYPE) = "no-pvp"
      \/ asLowerCaseString (cfg_string env WORLD_TYPE) = "pvp-enforced" ->
      (fst (run env DispatcherThread (mainLoader build) w0) = Exited ->
       exists s,
         In (Call s)
            (history DispatcherThread
               (snd (run env DispatcherThread (mainLoader build) w0)))
         /\ mandatory s = true /\ stage_ok env s = false)
      /\ ((forall s, mandatory s = true -> stage_ok env s = true) ->
          fst (run env DispatcherThread (mainLoader build) w0) = Returned tt
          /\ exit_code (snd (run env DispatcherThread (mainLoader build) w0)) = None
          /\ In (GetString WORLD_TYPE)
               (history DispatcherThread
                  (snd (run env DispatcherThread (mainLoader build) w0)))
          /\ worldType (snd (run env DispatcherThread (mainLoader build) w0))
             = worldType_of (asLowerCaseString (cfg_string env WORLD_TYPE)))).
Proof.
  intros Hr.
  pose proof (mainLoader_type env build w0 (ready_unread WORLD_TYPE w0 Hr)) as Ht.
  pose proof (mainLoader_sound env build _ w0 (ready_sound w0 Hr)) as Hs.
  pose proof (mainLoader_failed env build w0 (ready_unfailed env w0 Hr)) as Hf.
  assert (Hcause :
    fst (run env DispatcherThread (mainLoader build) w0) = Exited ->
    (exists s,
       In (Call s)
          (history DispatcherThread
             (snd (run env DispatcherThread (mainLoader build) w0)))
       /\ mandatory s = true /\ stage_ok env s = false)
    \/ (In (GetString WORLD_TYPE)
          (history DispatcherThread
             (snd (run env DispatcherThread (mainLoader build) w0)))
        /\ worldType_of (asLowerCaseString (cfg_string env WORLD_TYPE)) = None)).
  { destruct (run env DispatcherThread (mainLoader build) w0) as [[[] | k |] w'];
      cbn [fst snd]; [ discriminate | contradiction | ].
    intros _. destruct Hf as [_ Hf].
    destruct (watch_failed_exists env _ Hf) as (o & Hin & Ho).
    apply in_rev in Hin. fold (history DispatcherThread w') in Hin.
    destruct o; try discriminate Ho; cbn [failing] in Ho.
    - left. eexists. split; [ exact Hin | ].
      apply andb_true_iff in Ho. destruct Ho as [Hm Hk].
      apply negb_true_iff in Hk. split; assumption.
    - right. match goal with key : string_key |- _ => destruct key end;
        try discriminate Ho.
      split; [ exact Hin | ].
      destruct (worldType_of (asLowerCaseString (cfg_string env WORLD_TYPE)));
        [ discriminate Ho | reflexivity ]. }
  assert (Hvalid :
    asLowerCaseString (cfg_string env WORLD_TYPE) = "pvp"
    \/ asLowerCaseString (cfg_string env WORLD_TYPE) = "no-pvp"
    \/ asLowerCaseString (cfg_string env WORLD_TYPE) = "pvp-enforced" ->
    worldType_of (asLowerCaseString (cfg_string env WORLD_TYPE)) <> None).
  { intros [-> | [-> | ->]]; discriminate. }
  assert (Hinvalid :
    asLowerCaseString (cfg_string env WORLD_TYPE) <> "pvp" ->
    asLowerCaseString (cfg_string env WORLD_TYPE) <> "no-pvp" ->
    asLowerCaseString (cfg_string env WORLD_TYPE) <> "pvp-enforced" ->
    worldType_of (asLowerCaseString (cfg_string env WORLD_TYPE)) = None).
  { intros H1 H2 H3. unfold worldType_of.
    apply String.eqb_neq in H1, H2, H3. rewrite H1, H2, H3. reflexivity. }
  revert Hcause.
  destruct (run env DispatcherThread (mainLoader build) w0) as [[[] | k |] w'];
    cbn [fst snd]; [ | contradiction | ]; intros Hcause.
  - destruct Ht as (Hread & t & Ht & Hw). split; [ | split ].
    + intros _. rewrite Hw, <- Ht.
      repeat split; intros ->; reflexivity.
    + intros H1 H2 H3. exfalso. rewrite (Hinvalid H1 H2 H3) in Ht. discriminate Ht.
    + intros _. split; [ discriminate | ]. intros _.
      destruct Hs as (He & _). split; [ reflexivity | ]. split; [ exact He | ].
      split; [ | congruence ].
      apply reads_key_in. rewrite existsb_history. exact Hread.
  - split; [ | split ].
    + intros Hin.
      assert (Hread : existsb (reads_key WORLD_TYPE) (ops DispatcherThread w') = true).
      { rewrite <- existsb_history. apply In_reads_key; [ assumption | left; reflexivity ]. }
      specialize (Ht Hread).
      repeat split; intros Hv; apply Ht; rewrite Hv; reflexivity.
    + intros H1 H2 H3.
      destruct (escalated_history _ _ Hs) as (before & Hh & _ & Hadd).
      destruct Hs as (He & _ & Hb & _).
      split; [ reflexivity | ]. split; [ exact He | ]. split; [ exact Hb | ].
      split.
      * rewrite Hh. apply Forall_app. split; [ assumption | ].
        repeat constructor.
      * intros Hok. destruct (Hcause eq_refl) as [(s & _ & Hm & Hk) | [Hin _]];
          [ | exact Hin ].
        rewrite (Hok s Hm) in Hk. discriminate Hk.
    + intros Hv. split.
      * intros _. destruct (Hcause eq_refl) as [H | [_ Hnone]]; [ exact H | ].
        exfalso. apply (Hvalid Hv). exact Hnone.
      * intros Hok. exfalso.
        destruct (Hcause eq_refl) as [(s & _ & Hm & Hk) | [_ Hnone]].
        -- rewrite (Hok s Hm) in Hk. discriminate Hk.
        -- apply (Hvalid Hv). exact Hnone.
Qed.

Lemma world_type_selection_witness :
  worldType
    (snd (run (env_world "PvP-Enforced") DispatcherThread (mainLoader build0)
            (submitted (env_world "PvP-Enforced") build0 fs_dist)))
  = Some WORLD_TYPE_PVP_ENFORCED
  /\ fst (run (env_world "PvP-Enforced") DispatcherThread (mainLoader build0)
            (submitted (env_world "PvP-Enforced") build0 fs_dist)) = Returned tt
  /\ fst (run (env_world "invalid-mode") DispatcherThread (mainLoader build0)
            (submitted (env_world "invalid-mode") build0 fs_dist)) = Exited
  /\ services
       (snd (run (env_world "invalid-mode") DispatcherThread (mainLoader build0)
               (submitted (env_world "invalid-mode") build0 fs_dist)))
     = services (submitted (env_world "invalid-mode") build0 fs_dist).
Proof.
  assert (Hr : loader_ready (submitted (env_world "PvP-Enforced") build0 fs_dist))
    by (split; vm_compute; reflexivity).
  assert (Hr' : loader_ready (submitted (env_world "invalid-mode") build0 fs_dist))
    by (split; vm_compute; reflexivity).
  destruct (world_type_selection (env_world "PvP-Enforced") build0 _ Hr)
    as (H1 & _ & H3).
  destruct (world_type_selection (env_world "invalid-mode") build0 _ Hr')
    as (_ & H2 & _).
  assert (Hv : asLowerCaseString (cfg_string (env_world "PvP-Enforced") WORLD_TYPE)
               = "pvp-enforced") by (vm_compute; reflexivity).
  assert (Hok : forall s, mandatory s = true ->
                          stage_ok (env_world "PvP-Enforced") s = true)
    by (intros s _; reflexivity).
  assert (N1 : asLowerCaseString (cfg_string (env_world "invalid-mode") WORLD_TYPE)
               <> "pvp") by (vm_compute; discriminate).
  assert (N2 : asLowerCaseString (cfg_string (env_world "invalid-mode") WORLD_TYPE)
               <> "no-pvp") by (vm_compute; discriminate).
  assert (N3 : asLowerCaseString (cfg_string (env_world "invalid-mode") WORLD_TYPE)
               <> "pvp-enforced") by (vm_compute; discriminate).
  destruct (H3 (or_intror (or_intror Hv))) as [_ H4].
  destruct (H4 Hok) as (Hret & _ & Hin & _).
  destruct (H1 Hin) as (_ & _ & Hmode).
  destruct (H2 N1 N2 N3) as (Hex & _ & Hsv & _).
  split; [ exact (Hmode Hv) | ]. split; [ exact Hret | ].
  split; [ exact Hex | exact Hsv ].
Defined.

(** C6 (as the code has it).  The rent period is read from the
    configuration and lower-cased before it is compared: once the pipeline
    has read it, the loader goes on to the end without a fatal error (it
    returns, the process has not exited) and houses are paid with the period
    named by the lower-cased value, yearly, weekly, monthly or daily, and
    with "never" when the lower-cased value is none of the four. *)
Theorem rent_period_selection env build w0 :
  loader_ready w0 ->
  In (GetString HOUSE_RENT_PERIOD)
     (history DispatcherThread (snd (run env DispatcherThread (mainLoader build) w0))) ->
  fst (run env DispatcherThread (mainLoader build) w0) = Returned tt
  /\ exit_code (snd (run env DispatcherThread (mainLoader build) w0)) = None
  /\ rentPeriod (snd (run env DispatcherThread (mainLoader build) w0))
     = Some (rentPeriod_of (asLowerCaseString (cfg_string env HOUSE_RENT_PERIOD)))
  /\ rentPeriod_of "yearly" = RENTPERIOD_YEARLY
  /\ rentPeriod_of "weekly" = RENTPERIOD_WEEKLY
  /\ rentPeriod_of "monthly" = RENTPERIOD_MONTHLY
  /\ rentPeriod_of "daily" = RENTPERIOD_DAILY
  /\ (asLowerCaseString (cfg_string env HOUSE_RENT_PERIOD) <> "yearly" ->
      asLowerCaseString (cfg_string env HOUSE_RENT_PERIOD) <> "weekly" ->
      asLowerCaseString (cfg_string env HOUSE_RENT_PERIOD) <> "monthly" ->
      asLowerCaseString (cfg_string env HOUSE_RENT_PERIOD) <> "daily" ->
      rentPeriod (snd (run env DispatcherThread (mainLoader build) w0))
      = Some RENTPERIOD_NEVER).
Proof.
  intros Hr Hin.
  pose proof (mainLoader_rented env build w0 (ready_unread HOUSE_RENT_PERIOD w0 Hr)) as H.
  assert (Hread : existsb (reads_key HOUSE_RENT_PERIOD)
                    (ops DispatcherThread
                       (snd (run env DispatcherThread (mainLoader build) w0))) = true).
  { rewrite <- existsb_history. apply In_reads_key; [ assumption | right; reflexivity ]. }
  destruct (run env DispatcherThread (mainLoader build) w0) as [[[] | k |] w'];
    cbn [fst snd] in *; [ | contradiction | ].
  - destruct H as (He & _ & Hrent).
    repeat split; try assumption; try reflexivity.
    intros H1 H2 H3 H4. rewrite Hrent. unfold rentPeriod_of.
    apply String.eqb_neq in H1, H2, H3, H4. rewrite H1, H2, H3, H4. reflexivity.
  - unfold unrented in H. rewrite H in Hread. discriminate.
Qed.

Lemma rent_period_selection_witness :
  fst (run (env_rent "fortnightly") DispatcherThread (mainLoader build0)
         (submitted (env_rent "fortnightly") build0 fs_dist)) = Returned tt
  /\ rentPeriod
       (snd (run (env_rent "fortnightly") DispatcherThread (mainLoader build0)
               (submitted (env_rent "fortnightly") build0 fs_dist)))
     = Some RENTPERIOD_NEVER.
Proof.
  assert (Hr : loader_ready (submitted (env_rent "fortnightly") build0 fs_dist))
    by (split; vm_compute; reflexivity).
  assert (Hin : In (GetString HOUSE_RENT_PERIOD)
            (history DispatcherThread
               (snd (run (env_rent "fortnightly") DispatcherThread
                       (mainLoader build0)
                       (submitted (env_rent "fortnightly") build0 fs_dist)))))
    by (apply reads_key_in; vm_compute; reflexivity).
  destruct (rent_period_selection (env_rent "fortnightly") build0 _ Hr Hin)
    as (Ha & _ & _ & _ & _ & _ & _ & Hn).
  split; [ exact Ha | ].
  apply Hn; vm_compute; discriminate.
Defined.

(** C6 (as stated) fails: "YEARLY" is none of the four values "yearly",
    "weekly", "monthly", "daily", yet the pipeline goes to its end and pays
    the houses with the yearly period, not with "never". *)
Lemma rent_period_is_case_insensitive :
  cfg_string (env_rent "YEARLY") HOUSE_RENT_PERIOD <> "yearly"
  /\ cfg_string (env_rent "YEARLY") HOUSE_RENT_PERIOD <> "weekly"
  /\ cfg_string (env_rent "YEARLY") HOUSE_RENT_PERIOD <> "monthly"
  /\ cfg_string (env_rent "YEARLY") HOUSE_RENT_PERIOD <> "daily"
  /\ fst (loaded (env_rent "YEARLY") build0 fs_dist) = Returned tt
  /\ rentPeriod (snd (loaded (env_rent "YEARLY") build0 fs_dist))
     = Some RENTPERIOD_YEARLY
  /\ rentPeriod (snd (loaded (env_rent "YEARLY") build0 fs_dist))
     <> Some RENTPERIOD_NEVER.
Proof.
  repeat split; try (vm_compute; discriminate); vm_compute; reflexivity.
Qed.




(** C3 (as the code has it).  [main] calls [start] on the dispatcher, then
    on the scheduler, then submits the loader, in this order, and calls
    [start] on nothing else: at the submission these two workers are Running
    and [g_databaseTasks] is still Stopped, and so it is when [main] waits.
    The loader itself starts [g_databaseTasks] (line 195), exactly when the
    configuration, the RSA key, the database connection and the database
    schema check have all succeeded. *)
Theorem workers_at_submission env build fs :
  queue (submitted env build fs) = [MainLoaderTask]
  /\ filter is_start (history MainThread (submitted env build fs))
     = [Start G_dispatcher; Start G_scheduler]
  /\ g_dispatcher (submitted env build fs) = Running
  /\ g_scheduler (submitted env build fs) = Running
  /\ g_databaseTasks (submitted env build fs) = Stopped
  /\ g_databaseTasks (snd (loaded env build fs))
     = (if database_ready env then Running else Stopped)
  /\ existsb is_db_start (history DispatcherThread (snd (loaded env build fs)))
     = database_ready env
  /\ List.filter (fun o => is_start o || is_addTask o || is_wait o)
       (history MainThread (submitted env build fs))
     = [Start G_dispatcher; Start G_scheduler; AddTask MainLoaderTask; Wait]
  /\ fst (run env MainThread (main_startup build) (boot fs)) = Returned tt
  /\ List.filter (fun o => is_start o || is_addTask o)
       (history MainThread (snd (run env MainThread (main_startup build) (boot fs))))
     = [Start G_dispatcher; Start G_scheduler; AddTask MainLoaderTask]
  /\ g_dispatcher (snd (run env MainThread (main_startup build) (boot fs))) = Running
  /\ g_scheduler (snd (run env MainThread (main_startup build) (boot fs))) = Running
  /\ g_databaseTasks (snd (run env MainThread (main_startup build) (boot fs)))
     = Stopped
  /\ queue (snd (run env MainThread (main_startup build) (boot fs)))
     = [MainLoaderTask].
Proof.
  destruct (submitted_state env build fs)
    as (Hr & _ & _ & Hq & _ & Hd & Hs & Hdb & _ & _ & Hst).
  do 5 (split; [ assumption | ]).
  split; [ | split; [ | split ] ].
  - pose proof (mainLoader_db env build _ (ready_db_idle _ Hr Hdb)) as H.
    unfold loaded.
    destruct (run env DispatcherThread (mainLoader build) (submitted env build fs))
      as [[a | k |] w']; cbn [snd].
    + destruct H as (-> & -> & _). reflexivity.
    + contradiction.
    + destruct H as [H _]. exact H.
  - pose proof (mainLoader_db env build _ (ready_db_idle _ Hr Hdb)) as H.
    unfold loaded. rewrite existsb_history.
    destruct (run env DispatcherThread (mainLoader build) (submitted env build fs))
      as [[a | k |] w']; cbn [snd].
    + destruct H as (_ & -> & ->). reflexivity.
    + contradiction.
    + destruct H as [_ H]. exact H.
  - unfold submitted, boot, history. autounfold with prog.
    destruct (DEBUG_LOG build), (OS_WINDOWS build); cbv; reflexivity.
  - unfold boot, history. autounfold with prog.
    destruct (DEBUG_LOG build), (OS_WINDOWS build); cbv; repeat split; reflexivity.
Qed.

(** C3 (as stated) fails: when the loader has been submitted,
    [g_databaseTasks] is not Running and the main thread has not called
    [start] on it. *)
Lemma databaseTasks_not_started_at_submission :
  queue (submitted env_ok build0 fs_dist) = [MainLoaderTask]
  /\ worker_state G_databaseTasks (submitted env_ok build0 fs_dist) = Stopped
  /\ ~ In (Start G_databaseTasks) (history MainThread (submitted env_ok build0 fs_dist)).
Proof.
  split; [ vm_compute; reflexivity | ]. split; [ vm_compute; reflexivity | ].
  vm_compute. intuition discriminate.
Qed.

(** C2 (as the code has it).  When the main thread is woken and no service
    is bound, it never enters the serve loop: it logs the error, asks
    [g_databaseTasks] and then [g_dispatcher] to shut down, and exits with
    -1.  The scheduler is not asked to shut down and no worker is joined. *)
Theorem no_service_shutdown env build fs w :
  runnable MainThread w = true ->
  services w = [] ->
  exists w',
    resume env MainThread (run env MainThread (main build) (boot fs)) w = (Exited, w')
    /\ exit_code w' = Some (-1)
    /\ history MainThread w'
       = history MainThread w
         ++ [IsRunning;
             Log LError "No services running. The server is NOT online!";
             Shutdown G_databaseTasks; Shutdown G_dispatcher; Exit (-1)].
Proof.
  intros Hw Hs. rewrite (main_wakes env build fs w Hw).
  destruct (main_decide_offline env w) as (w' & Hrun & He & Hops).
  { rewrite Hs. reflexivity. }
  exists w'. repeat split; try assumption.
  unfold history. rewrite Hops. cbn [rev]. repeat rewrite <- app_assoc. reflexivity.
Qed.

Lemma no_service_shutdown_witness :
  exists w',
    resume env_ports_busy MainThread
      (run env_ports_busy MainThread (main build0) (boot fs_dist))
      (snd (loaded env_ports_busy build0 fs_dist)) = (Exited, w')
    /\ exit_code w' = Some (-1)
    /\ history MainThread w'
       = history MainThread (snd (loaded env_ports_busy build0 fs_dist))
         ++ [IsRunning;
             Log LError "No services running. The server is NOT online!";
             Shutdown G_databaseTasks; Shutdown G_dispatcher; Exit (-1)].
Proof.
  apply (no_service_shutdown env_ports_busy build0 fs_dist
           (snd (loaded env_ports_busy build0 fs_dist))).
  - vm_compute. reflexivity.
  - vm_compute. reflexivity.
Defined.

(** C2 (as stated) fails: every port is in use, the loader completes with no
    service bound, the main thread is woken and the process exits with -1,
    but the scheduler was never asked to shut down. *)
Lemma scheduler_is_not_shut_down :
  fst (loaded env_ports_busy build0 fs_dist) = Returned tt
  /\ services (snd (loaded env_ports_busy build0 fs_dist)) = []
  /\ exit_code (snd (finished env_ports_busy build0 fs_dist)) = Some (-1)
  /\ ~ all_workers_shut_down
         (history MainThread (snd (finished env_ports_busy build0 fs_dist))).
Proof.
  split; [ vm_compute; reflexivity | ]. split; [ vm_compute; reflexivity | ].
  split; [ vm_compute; reflexivity | ].
  intros H. specialize (H G_scheduler). vm_compute in H. intuition discriminate.
Qed.

(** C7.  When the main thread is woken and a service is bound, it enters the
    serve loop and, once that returns, joins the scheduler, then
    [g_databaseTasks], then the dispatcher, in this order, and returns 0. *)
Theorem workers_joined_in_order env build fs w :
  runnable MainThread w = true ->
  service_is_running (services w) = true ->
  exists w',
    resume env MainThread (run env MainThread (main build) (boot fs)) w
    = (Returned 0, w')
    /\ history MainThread w'
       = history MainThread w
         ++ [IsRunning; GetString SERVER_NAME;
             Log LInfo (cfg_string env SERVER_NAME +:+ " " +:+ "server online!");
             ServiceRun;
             Join G_scheduler; Join G_databaseTasks; Join G_dispatcher].
Proof.
  intros Hw Hs. rewrite (main_wakes env build fs w Hw).
  destruct (main_decide_serving env w Hs) as (w' & Hrun & He & Hops).
  exists w'. split; [ assumption | ].
  unfold history. rewrite Hops. cbn [rev]. repeat rewrite <- app_assoc. reflexivity.
Qed.

Lemma workers_joined_in_order_witness :
  exists w',
    resume env_ok MainThread (run env_ok MainThread (main build0) (boot fs_dist))
      (snd (loaded env_ok build0 fs_dist))
    = (Returned 0, w')
    /\ history MainThread w'
       = history MainThread (snd (loaded env_ok build0 fs_dist))
         ++ [IsRunning; GetString SERVER_NAME;
             Log LInfo (cfg_string env_ok SERVER_NAME +:+ " " +:+ "server online!");
             ServiceRun;
             Join G_scheduler; Join G_databaseTasks; Join G_dispatcher].
Proof.
  apply (workers_joined_in_order env_ok build0 fs_dist
           (snd (loaded env_ok build0 fs_dist))).
  - vm_compute. reflexivity.
  - vm_compute. reflexivity.
Defined.

(** C9 (as the code has it).  [g_loaderSignal] is a bare condition variable:
    no flag records that it has fired, and [main] waits on it once, without
    a predicate (line 268).  The loader calls [notify_all] exactly once when
    it runs to its end; under every interleaving of the two threads, wake-ups
    without notification included, the dispatcher thread has notified at
    most once and the main thread never.  As long as no such wake-up occurs,
    the main thread inspects the service manager only once the dispatcher
    thread has notified.  But a wait that begins after the notification is
    not released by it: the main thread then stays where it is under every
    schedule without wake-ups.  And a wake-up without notification lets the
    main thread go on before the loader has done anything: it finds no
    service and ends the process with -1. *)
Theorem loader_signal_has_no_memory build env fs :
  notify_count (history DispatcherThread (snd (loaded env build fs))) = 1%nat
  /\ (forall evs,
        (notify_count
           (history DispatcherThread
              (world (sys_play build env evs (power_on build fs)))) <= 1)%nat
        /\ notify_count
             (history MainThread
                (world (sys_play build env evs (power_on build fs)))) = 0%nat)
  /\ (forall sched,
        In IsRunning
          (history MainThread (world (sys_run build env sched (power_on build fs)))) ->
        In NotifyAll
          (history DispatcherThread
             (world (sys_run build env sched (power_on build fs)))))
  /\ (forall evs sched,
        In MainThread (waiters (world (sys_play build env evs (power_on build fs)))) ->
        In NotifyAll
          (history DispatcherThread
             (world (sys_play build env evs (power_on build fs)))) ->
        at_main (sys_run build env sched
                   (sys_play build env evs (power_on build fs)))
        = at_main (sys_play build env evs (power_on build fs))
        /\ history MainThread
             (world (sys_run build env sched
                       (sys_play build env evs (power_on build fs))))
           = history MainThread
               (world (sys_play build env evs (power_on build fs))))
  /\ exit_code (world (sys_play build env early_wake (power_on build fs)))
     = Some (-1)
  /\ history DispatcherThread
       (world (sys_play build env early_wake (power_on build fs))) = []
  /\ after_wait
       (history MainThread
          (world (sys_play build env early_wake (power_on build fs))))
     = [IsRunning; Log LError "No services running. The server is NOT online!";
        Shutdown G_databaseTasks; Shutdown G_dispatcher; Exit (-1)].
Proof.
  split; [ apply sequential_notifies_once | ].
  split.
  { intros evs. split.
    - apply (on_script_notifies_once build env fs).
      apply sys_play_on_script, power_on_on_script.
    - apply notify_count_none.
      apply (sys_play_main_ops build env (fun o => negb (is_notify o))).
      + apply main_never_notifies.
      + constructor. }
  split.
  { intros sched Hread.
    assert (Hafter : after_wait
                       (history MainThread
                          (world (sys_run build env sched (power_on build fs))))
                     <> []).
    { rewrite <- sys_play_steps. apply main_reads_after_wait.
      rewrite sys_play_steps. exact Hread. }
    assert (Hp : patient (sys_run build env sched (power_on build fs))).
    { apply sys_run_patient. left. intros []. }
    destruct Hp as [Hno | [[_ Hnil] | Hn]].
    - exfalso. apply Hafter. apply after_wait_none, Hno.
    - exfalso. apply Hafter, Hnil.
    - exact Hn. }
  split.
  { intros evs sched Hin Hn. apply (sys_run_late build env fs); try assumption.
    apply sys_play_on_script, power_on_on_script. }
  apply early_wake_gives_up.
Qed.

Lemma loader_signal_has_no_memory_witness :
  at_main (sys_run build0 env_ok (repeat MainThread 10)
             (sys_play build0 env_ok
                (map Step (repeat MainThread 5 ++ repeat DispatcherThread 200
                           ++ repeat MainThread 5))
                (power_on build0 fs_dist)))
  = at_main (sys_play build0 env_ok
               (map Step (repeat MainThread 5 ++ repeat DispatcherThread 200
                          ++ repeat MainThread 5))
               (power_on build0 fs_dist)).
Proof.
  destruct (loader_signal_has_no_memory build0 env_ok fs_dist)
    as (_ & _ & _ & H & _).
  apply H.
  - vm_compute. left. reflexivity.
  - apply notify_in. vm_compute. reflexivity.
Defined.

(** C9 (as stated) fails.  Let the dispatcher thread run the whole loader
    before the main thread reaches [wait]: the one [notify_all] has been
    issued, the wait begins after it, and the main thread is blocked for
    good, with three services bound that it will never serve: no thread can
    take a step, under any schedule the process stays as it is. *)
Lemma late_waiter_misses_the_signal :
  notify_count (history DispatcherThread (world late_wait)) = 1%nat
  /\ hd_error (trace (world late_wait)) = Some (MainThread, Wait)
  /\ services (world late_wait)
     = [(ProtocolGame, 7172); (ProtocolLogin, 7171); (ProtocolStatus, 7171)]
  /\ runnable MainThread (world late_wait) = false
  /\ deadlocked build0 env_ok late_wait
  /\ forall sched, sys_run build0 env_ok sched late_wait = late_wait.
Proof.
  assert (Hd : deadlocked build0 env_ok late_wait).
  { split; [ vm_compute; reflexivity | ]. intros []; vm_compute; reflexivity. }
  split; [ vm_compute; reflexivity | ].
  split; [ vm_compute; reflexivity | ].
  split; [ vm_compute; reflexivity | ].
  split; [ vm_compute; reflexivity | ].
  split; [ exact Hd | ].
  intros sched. apply deadlock_is_final. exact Hd.
Qed.

(** * Further properties of the start-up *)

(** ** The loader *)

(** X1.  The loader ends the process if and only if a mandatory stage
    failed: one of the operations the dispatcher thread performed is a
    mandatory loader call that reported failure or the reading of an unknown
    world type.  Otherwise it returns. *)
Theorem loader_exits_iff_mandatory_failure env build w0 :
  loader_ready w0 ->
  (fst (run env DispatcherThread (mainLoader build) w0) = Exited
   <-> exists o,
         In o (history DispatcherThread
                 (snd (run env DispatcherThread (mainLoader build) w0)))
         /\ failing env o = true)
  /\ (fst (run env DispatcherThread (mainLoader build) w0) = Returned tt
      <-> forall o,
            In o (history DispatcherThread
                    (snd (run env DispatcherThread (mainLoader build) w0))) ->
            failing env o = false).
Proof.
  intros Hr.
  pose proof (mainLoader_failed env build w0 (ready_unfailed env w0 Hr)) as H.
  destruct (run env DispatcherThread (mainLoader build) w0) as [[[] | k |] w'];
    cbn [fst snd]; [ | contradiction | ].
  - destruct H as [_ Hc].
    assert (Hno : forall o, In o (history DispatcherThread w') -> failing env o = false).
    { intros o Hin. apply (watch_clean env _ o Hc). apply in_rev. exact Hin. }
    split; split.
    + discriminate.
    + intros (o & Hin & Ho). rewrite (Hno o Hin) in Ho. discriminate.
    + intros _. exact Hno.
    + reflexivity.
  - destruct H as [_ Hf]. destruct (watch_failed_exists env _ Hf) as (o & Hin & Ho).
    assert (Hin' : In o (history DispatcherThread w')).
    { unfold history. apply in_rev in Hin. exact Hin. }
    split; split.
    + intros _. exists o. split; assumption.
    + reflexivity.
    + discriminate.
    + intros Hno. rewrite (Hno o Hin') in Ho. discriminate.
Qed.

Lemma loader_exits_iff_mandatory_failure_witness :
  (fst (run env_no_map DispatcherThread (mainLoader build0)
          (submitted env_no_map build0 fs_dist)) = Exited
   <-> exists o,
         In o (history DispatcherThread
                 (snd (run env_no_map DispatcherThread (mainLoader build0)
                         (submitted env_no_map build0 fs_dist))))
         /\ failing env_no_map o = true)
  /\ (fst (run env_no_map DispatcherThread (mainLoader build0)
             (submitted env_no_map build0 fs_dist)) = Returned tt
      <-> forall o,
            In o (history DispatcherThread
                    (snd (run env_no_map DispatcherThread (mainLoader build0)
                            (submitted env_no_map build0 fs_dist)))) ->
            failing env_no_map o = false).
Proof.
  apply (loader_exits_iff_mandatory_failure env_no_map build0
           (submitted env_no_map build0 fs_dist)).
  split; vm_compute; reflexivity.
Defined.

(** X2.  When every mandatory loader succeeds and the world type is one of
    the three accepted, the loader returns with the process alive, the game
    state NORMAL and the waiters released, whatever the non-mandatory steps
    do: a failed [optimizeTables] and listeners that cannot be bound do not
    stop it. *)
Theorem loader_completes_when_mandatory_stages_pass env build w0 :
  loader_ready w0 ->
  (forall s, mandatory s = true -> stage_ok env s = true) ->
  worldType_of (asLowerCaseString (cfg_string env WORLD_TYPE)) <> None ->
  fst (run env DispatcherThread (mainLoader build) w0) = Returned tt
  /\ exit_code (snd (run env DispatcherThread (mainLoader build) w0)) = None
  /\ waiters (snd (run env DispatcherThread (mainLoader build) w0)) = []
  /\ gameState (snd (run env DispatcherThread (mainLoader build) w0))
     = Some GAME_STATE_NORMAL.
Proof.
  intros Hr Hok Hwt.
  pose proof (mainLoader_failed env build w0 (ready_unfailed env w0 Hr)) as Hf.
  pose proof (mainLoader_sound env build _ w0 (ready_sound w0 Hr)) as Hs.
  pose proof (mainLoader_state env build w0 Hr) as Hg.
  destruct (run env DispatcherThread (mainLoader build) w0) as [[[] | k |] w'];
    cbn [fst snd]; [ | contradiction | ].
  - destruct Hs as (He & Hw & _). destruct Hg as [_ Hg]. repeat split; assumption.
  - exfalso. destruct Hf as [_ Hf].
    destruct (watch_failed_exists env _ Hf) as (o & _ & Ho).
    destruct o; try discriminate Ho; cbn [failing] in Ho.
    + match goal with
      | s : stage |- _ =>
          destruct (mandatory s) eqn:Hm; [ rewrite (Hok s Hm) in Ho | ];
          discriminate Ho
      end.
    + match goal with key : string_key |- _ => destruct key end;
        try discriminate Ho.
      destruct (worldType_of (asLowerCaseString (cfg_string env WORLD_TYPE)));
        [ discriminate Ho | contradiction ].
Qed.

Lemma loader_completes_when_mandatory_stages_pass_witness :
  stage_ok env_rough OptimizeTables = false
  /\ fst (run env_rough DispatcherThread (mainLoader build0)
            (submitted env_rough build0 fs_dist)) = Returned tt
  /\ exit_code (snd (run env_rough DispatcherThread (mainLoader build0)
                       (submitted env_rough build0 fs_dist))) = None
  /\ waiters (snd (run env_rough DispatcherThread (mainLoader build0)
                     (submitted env_rough build0 fs_dist))) = []
  /\ gameState (snd (run env_rough DispatcherThread (mainLoader build0)
                       (submitted env_rough build0 fs_dist)))
     = Some GAME_STATE_NORMAL.
Proof.
  split; [ reflexivity | ].
  apply (loader_completes_when_mandatory_stages_pass env_rough build0
           (submitted env_rough build0 fs_dist)).
  - split; vm_compute; reflexivity.
  - intros s Hm. destruct s; try reflexivity. discriminate Hm.
  - vm_compute. discriminate.
Defined.

(** X3.  The two optional loaders run only when the configuration asks for
    them: with OPTIMIZE_DATABASE off [optimizeTables] is never called, and
    with TOGGLE_MAP_CUSTOM off no custom map is ever loaded. *)
Theorem optional_loaders_are_guarded env build w0 :
  loader_ready w0 ->
  (cfg_boolean env OPTIMIZE_DATABASE = false ->
   ~ In (Call OptimizeTables)
       (history DispatcherThread (snd (run env DispatcherThread (mainLoader build) w0))))
  /\ (cfg_boolean env TOGGLE_MAP_CUSTOM = false ->
      forall name,
        ~ In (Call (LoadCustomMap name))
            (history DispatcherThread
               (snd (run env DispatcherThread (mainLoader build) w0)))).
Proof.
  intros Hr.
  pose proof (mainLoader_guarded env build w0 (ready_guarded env w0 Hr)) as H.
  assert (Hg : guarded env (snd (run env DispatcherThread (mainLoader build) w0))).
  { destruct (run env DispatcherThread (mainLoader build) w0) as [[a | k |] w'];
      [ exact H | contradiction | exact H ]. }
  clear H. destruct Hg as [Ho Hc]. split.
  - intros Hoff Hin. rewrite Ho in Hoff; [ discriminate | ].
    rewrite <- existsb_history. apply existsb_exists.
    exists (Call OptimizeTables). split; [ assumption | reflexivity ].
  - intros Hoff name Hin. rewrite Hc in Hoff; [ discriminate | ].
    rewrite <- existsb_history. apply existsb_exists.
    exists (Call (LoadCustomMap name)). split; [ assumption | reflexivity ].
Qed.

Lemma optional_loaders_are_guarded_witness :
  ~ In (Call OptimizeTables)
      (history DispatcherThread
         (snd (run env_ok DispatcherThread (mainLoader build0)
                 (submitted env_ok build0 fs_dist)))).
Proof.
  assert (Hr : loader_ready (submitted env_ok build0 fs_dist))
    by (split; vm_compute; reflexivity).
  destruct (optional_loaders_are_guarded env_ok build0 _ Hr) as [H _].
  apply H. vm_compute. reflexivity.
Defined.

(** X4.  The loader calls [services->add] only at the end of a successful
    pipeline: when it returns it has asked for the game, the login and the
    status service, in this order, each on its configured port reduced to 16
    bits, and the set of services is what these three calls make of the
    initial one; when it ends the process it has asked for none and the set
    is unchanged.  Every port it passes lies between 0 and 65535. *)
Theorem services_are_added_at_the_end env build w0 :
  loader_ready w0 ->
  match run env DispatcherThread (mainLoader build) w0 with
  | (Returned _, w') =>
      service_adds (history DispatcherThread w')
      = [(ProtocolGame, cfg_number env GAME_PORT mod 65536);
         (ProtocolLogin, cfg_number env LOGIN_PORT mod 65536);
         (ProtocolStatus, cfg_number env STATUS_PORT mod 65536)]
      /\ services w' = registered env (services w0)
      /\ Forall (fun s => 0 <= snd s < 65536) (service_adds (history DispatcherThread w'))
  | (Parked _, _) => False
  | (Exited, w') =>
      service_adds (history DispatcherThread w') = [] /\ services w' = services w0
  end.
Proof.
  intros Hr.
  pose proof (mainLoader_added env build w0 (ready_added w0 Hr)) as Ha.
  pose proof (mainLoader_holds env build (services w0) w0 eq_refl) as Hh.
  unfold history.
  destruct (run env DispatcherThread (mainLoader build) w0) as [[a | k |] w'];
    [ | contradiction | ].
  - rewrite service_adds_rev, Ha. cbn [three_adds rev app].
    split; [ reflexivity | ]. split; [ exact Hh | ].
    repeat constructor; cbn [snd]; apply to_uint16_range.
  - rewrite service_adds_rev, Ha. split; [ reflexivity | exact Hh ].
Qed.

Lemma services_are_added_at_the_end_witness :
  match run env_ports_busy DispatcherThread (mainLoader build0)
          (submitted env_ports_busy build0 fs_dist) with
  | (Returned _, w') =>
      service_adds (history DispatcherThread w')
      = [(ProtocolGame, cfg_number env_ports_busy GAME_PORT mod 65536);
         (ProtocolLogin, cfg_number env_ports_busy LOGIN_PORT mod 65536);
         (ProtocolStatus, cfg_number env_ports_busy STATUS_PORT mod 65536)]
      /\ services w'
         = registered env_ports_busy (services (submitted env_ports_busy build0 fs_dist))
      /\ Forall (fun s => 0 <= snd s < 65536) (service_adds (history DispatcherThread w'))
  | (Parked _, _) => False
  | (Exited, w') =>
      service_adds (history DispatcherThread w') = []
      /\ services w' = services (submitted env_ports_busy build0 fs_dist)
  end.
Proof.
  apply (services_are_added_at_the_end env_ports_busy build0
           (submitted env_ports_busy build0 fs_dist)).
  split; vm_compute; reflexivity.
Defined.

(** X5.  The game state follows the pipeline: it is STARTUP whenever the
    loader ends the process, since INIT is set only once every mandatory
    stage has passed, and NORMAL when the loader returns. *)
Theorem game_state_follows_the_pipeline env build w0 :
  loader_ready w0 ->
  gameState (snd (run env DispatcherThread (mainLoader build) w0))
  = Some match fst (run env DispatcherThread (mainLoader build) w0) with
         | Returned _ => GAME_STATE_NORMAL
         | _ => GAME_STATE_STARTUP
         end.
Proof.
  intros Hr. pose proof (mainLoader_state env build w0 Hr) as H.
  destruct (run env DispatcherThread (mainLoader build) w0) as [[a | k |] w'];
    cbn [fst snd]; [ | contradiction | ]; destruct H as [_ H]; exact H.
Qed.

Lemma game_state_follows_the_pipeline_witness :
  gameState (snd (run (env_world "invalid-mode") DispatcherThread (mainLoader build0)
                    (submitted (env_world "invalid-mode") build0 fs_dist)))
  = Some match fst (run (env_world "invalid-mode") DispatcherThread
                      (mainLoader build0)
                      (submitted (env_world "invalid-mode") build0 fs_dist)) with
         | Returned _ => GAME_STATE_NORMAL
         | _ => GAME_STATE_STARTUP
         end.
Proof.
  apply (game_state_follows_the_pipeline (env_world "invalid-mode") build0
           (submitted (env_world "invalid-mode") build0 fs_dist)).
  split; vm_compute; reflexivity.
Defined.

(** X6.  No loader is called before [initGlobalScopes] has created the
    scripts, modules, events and imbuements objects the loaders work on:
    whatever loader call the dispatcher thread performs, the four creations
    come before it. *)
Theorem loaders_run_after_initGlobalScopes env build w0 pre s post :
  loader_ready w0 ->
  history DispatcherThread (snd (run env DispatcherThread (mainLoader build) w0))
  = pre ++ Call s :: post ->
  In (Extern NewScripts) pre /\ In (Extern NewModules) pre
  /\ In (Extern NewEvents) pre /\ In (Extern NewImbuements) pre.
Proof.
  intros Hr Hh.
  pose proof (mainLoader_scoped env build w0 (ready_scoped w0 Hr)) as H.
  assert (Hc : calls_after_scopes
                 (ops DispatcherThread
                    (snd (run env DispatcherThread (mainLoader build) w0))) = true).
  { destruct (run env DispatcherThread (mainLoader build) w0) as [[a | k |] w'];
      [ | contradiction | ]; destruct H as [H _]; exact H. }
  apply history_split in Hh. rewrite Hh in Hc.
  apply calls_after_scopes_split in Hc. apply created_In in Hc.
  destruct Hc as (H1 & H2 & H3 & H4).
  repeat split; apply in_rev; assumption.
Qed.

Lemma loaders_run_after_initGlobalScopes_witness :
  In (Extern NewScripts)
    (firstn 18 (history DispatcherThread (snd (loaded env_no_config build0 fs_dist))))
  /\ In (Extern NewModules)
       (firstn 18 (history DispatcherThread (snd (loaded env_no_config build0 fs_dist))))
  /\ In (Extern NewEvents)
       (firstn 18 (history DispatcherThread (snd (loaded env_no_config build0 fs_dist))))
  /\ In (Extern NewImbuements)
       (firstn 18 (history DispatcherThread (snd (loaded env_no_config build0 fs_dist)))).
Proof.
  apply (loaders_run_after_initGlobalScopes env_no_config build0
           (submitted env_no_config build0 fs_dist)
           (firstn 18 (history DispatcherThread (snd (loaded env_no_config build0 fs_dist))))
           ConfigLoad
           (skipn 19 (history DispatcherThread (snd (loaded env_no_config build0 fs_dist))))).
  - split; vm_compute; reflexivity.
  - vm_compute. reflexivity.
Defined.

(** X7.  [notify_all] is the last thing the loader does to the shared
    state: after it the dispatcher thread performs nothing but the
    [getchar] and the [exit] of [startupErrorMessage].  In particular every
    [services->add] precedes the notification, so what the main thread reads
    from the service manager once released is final. *)
Theorem nothing_follows_the_notification env build w0 pre post :
  loader_ready w0 ->
  history DispatcherThread (snd (run env DispatcherThread (mainLoader build) w0))
  = pre ++ NotifyAll :: post ->
  Forall (fun o => is_getchar_or_exit o = true) post
  /\ service_adds post = [].
Proof.
  intros Hr Hh.
  pose proof (mainLoader_signalled env build w0 (ready_unsignalled w0 Hr)) as H.
  assert (Hq : quiet_after_notify
                 (ops DispatcherThread
                    (snd (run env DispatcherThread (mainLoader build) w0))) = true).
  { destruct (run env DispatcherThread (mainLoader build) w0) as [[a | k |] w'];
      [ exact H | contradiction | exact H ]. }
  apply history_split in Hh. rewrite Hh in Hq.
  apply quiet_after_notify_split in Hq. rewrite forallb_rev in Hq.
  split; [ apply forallb_Forall; assumption | ].
  clear Hh. induction post as [| o post IH]; [ reflexivity | ].
  cbn [forallb] in Hq. apply andb_true_iff in Hq. destruct Hq as [Ho Hq].
  destruct o; try discriminate Ho; cbn [service_adds]; apply IH; assumption.
Qed.

Lemma nothing_follows_the_notification_witness :
  Forall (fun o => is_getchar_or_exit o = true) [GetChar; Exit (-1)]
  /\ service_adds [GetChar; Exit (-1)] = [].
Proof.
  apply (nothing_follows_the_notification env_no_config build0
           (submitted env_no_config build0 fs_dist)
           (firstn 22 (history DispatcherThread (snd (loaded env_no_config build0 fs_dist))))).
  - split; vm_compute; reflexivity.
  - vm_compute. reflexivity.
Defined.

(** ** The two threads *)

(** X8.  Whatever the environment and however the main thread and the
    dispatcher thread are interleaved, a process that has ended through
    [exit] has done so with -1, and if [main] has returned it has returned
    0. *)
Theorem every_schedule_ends_with_0_or_minus_1 build env fs sched :
  (exit_code (world (sys_run build env sched (power_on build fs))) = None
   \/ exit_code (world (sys_run build env sched (power_on build fs))) = Some (-1))
  /\ forall z,
       at_main (sys_run build env sched (power_on build fs)) = Ret z -> z = 0.
Proof.
  destruct (sys_run_well_coded build env sched _ (power_on_well_coded build fs))
    as (_ & _ & Hr & He).
  split; [ exact He | ].
  intros z Hz. rewrite Hz in Hr. exact Hr.
Qed.

(** X9.  Under the expected schedule, where the main thread is already
    waiting when the loader runs, the process always comes to an end: if
    the loader ends the process the code is -1 and no service is bound; if
    the loader returns, the main thread is released and the process ends
    with 0 when one of the three services could be bound and with -1 when
    none could. *)
Theorem startup_outcome env build fs :
  match loaded env build fs with
  | (Returned _, w) =>
      runnable MainThread w = true
      /\ services w = registered env []
      /\ exit_status (finished env build fs)
         = Some (if service_is_running (registered env []) then 0 else -1)
  | (Parked _, _) => False
  | (Exited, w) => exit_code w = Some (-1) /\ services w = []
  end.
Proof.
  destruct (submitted_state env build fs) as (Hr & _ & Hsv & _).
  pose proof (mainLoader_sound env build _ _ (ready_sound _ Hr)) as Hs.
  pose proof (mainLoader_holds env build [] _ Hsv) as Hh.
  unfold finished, loaded.
  destruct (run env DispatcherThread (mainLoader build) (submitted env build fs))
    as [[a | k |] w]; cbn [snd]; [ | contradiction | ].
  - destruct Hs as (He & Hw & _).
    assert (Hrun : runnable MainThread w = true).
    { unfold runnable. rewrite He, Hw. reflexivity. }
    split; [ exact Hrun | ]. split; [ exact Hh | ].
    rewrite (main_wakes env build fs w Hrun). unfold exit_status.
    unfold holds in Hh. rewrite <- Hh.
    destruct (service_is_running (services w)) eqn:Hsr.
    + destruct (main_decide_serving env w Hsr) as (w' & -> & _). reflexivity.
    + destruct (main_decide_offline env w Hsr) as (w' & -> & Hx & _). exact Hx.
  - destruct Hs as (He & _ & Hb & _). split; [ exact He | ].
    rewrite Hb. exact Hsv.
Qed.

(** ** The working directory *)



(** X11.  Lines 323-336 are idempotent: while the access rights stay what
    they are, running them again on the files they have left changes
    nothing, whether the first run copied config.lua.dist or not. *)
Theorem copy_of_the_configuration_is_idempotent env t u w0 w1 :
  files w1 = files (snd (run env t mainLoader_copyConfig w0)) ->
  files (snd (run env u mainLoader_copyConfig w1)) = files w1.
Proof.
  intros Hf. rewrite copyConfig_copies, Hf, copyConfig_copies.
  generalize (files w0). intros fs.
  destruct (ifstream_is_open env "./config.lua" fs) eqn:Hc.
  { assert (E : copied env fs = fs) by (unfold copied; rewrite Hc; reflexivity).
    rewrite !E. reflexivity. }
  destruct (ifstream_is_open env "./config.lua.dist" fs) eqn:Hd.
  2: { assert (E : copied env fs = fs)
         by (unfold copied; rewrite Hc, Hd; reflexivity).
       rewrite !E. reflexivity. }
  destruct (ofstream_is_open env "config.lua" fs) eqn:Ho.
  2: { assert (E : copied env fs = fs)
         by (unfold copied; rewrite Hc, Hd, Ho; reflexivity).
       rewrite !E. reflexivity. }
  destruct (fs !! "config.lua.dist") as [dist |] eqn:Hdist.
  2: { assert (E : copied env fs = fs)
         by (unfold copied; rewrite Hc, Hd, Ho, Hdist; reflexivity).
       rewrite !E. reflexivity. }
  assert (E : copied env fs = <["config.lua" := dist]> fs)
    by (unfold copied; rewrite Hc, Hd, Ho, Hdist; reflexivity).
  rewrite !E.
  unfold ifstream_is_open in Hd. cbn [normalize] in Hd. rewrite Hdist in Hd.
  unfold copied, ifstream_is_open, ofstream_is_open. cbn [normalize].
  rewrite lookup_insert_eq.
  rewrite lookup_insert_ne by discriminate. rewrite Hdist, Hd.
  destruct (can_read env "config.lua"); [ reflexivity | ].
  destruct (can_write env "config.lua"); [ | reflexivity ].
  rewrite insert_insert_eq. reflexivity.
Qed.

Lemma copy_of_the_configuration_is_idempotent_witness :
  files (snd (run env_unreadable DispatcherThread mainLoader_copyConfig
                (snd (run env_unreadable DispatcherThread mainLoader_copyConfig
                        (boot fs_both)))))
  = files (snd (run env_unreadable DispatcherThread mainLoader_copyConfig
                  (boot fs_both))).
Proof.
  apply (copy_of_the_configuration_is_idempotent env_unreadable
           DispatcherThread DispatcherThread (boot fs_both)).
  reflexivity.
Defined.

(** ** The helpers *)

(** X12.  [badAllocationHandler] tells the operator, waits for a key and
    ends the process with -1, from any state and on any thread, and it never
    returns; unlike [startupErrorMessage] it does not call [notify_all]: the
    threads waiting on the condition variable stay as they are, and so does
    the rest of the state. *)
Theorem badAllocationHandler_exits_without_notifying env t w :
  exists w',
    run env t badAllocationHandler w = (Exited, w')
    /\ exit_code w' = Some (-1)
    /\ waiters w' = waiters w
    /\ set_trace [] (set_exit_code None w') = set_trace [] (set_exit_code None w)
    /\ history t w'
       = history t w
         ++ [Log LError ("Allocation failed, server out of memory, "
                         +:+ "decrease the size of your map or compile in 64 bits mode");
             GetChar; Exit (-1)].
Proof.
  destruct w as [f s d sc db g wt r q ws e tr].
  unfold history. autounfold with prog.
  destruct t; sym_exec; eexists; (split; [ reflexivity | ]);
    (split; [ reflexivity | ]); (split; [ reflexivity | ]);
    (split; [ reflexivity | ]);
    cbn [rev]; repeat rewrite <- app_assoc; reflexivity.
Qed.

(** X13.  [modulesLoadHelper] returns if and only if the module was loaded.
    When it returns it has only logged the name of the module; when the
    module was not loaded it reports the module, goes through
    [startupErrorMessage] and the process exits with -1. *)
Theorem modulesLoadHelper_returns_iff_loaded env t loaded name w :
  match run env t (modulesLoadHelper loaded name) w with
  | (Returned _, w') =>
      loaded = true
      /\ set_trace [] w' = set_trace [] w
      /\ history t w' = history t w ++ [Log LInfo ("Loading " +:+ name)]
  | (Parked _, _) => False
  | (Exited, w') =>
      loaded = false
      /\ exit_code w' = Some (-1)
      /\ history t w'
         = history t w
           ++ [Log LInfo ("Loading " +:+ name);
               Log LError ("Cannot load: " +:+ name);
               error_notice; NotifyAll; GetChar; Exit (-1)]
  end.
Proof.
  destruct w as [f s d sc db g wt r q ws e tr].
  unfold history. autounfold with prog.
  destruct loaded, t; sym_exec; (split; [ reflexivity | ]);
    (split; [ reflexivity | ]);
    cbn [rev]; repeat rewrite <- app_assoc; reflexivity.
Qed.

(** X14.  [getCppVersion] names a standard only for the exact value of
    [__cplusplus] that standard defines; every value above 201703 is
    reported as "C++20 or higher", and every other value, those between two
    standards included, as "C++ unknown". *)
Theorem getCppVersion_names_exact_standards build :
  (getCppVersion build = "C++20 or higher" <-> 201703 < cplusplus build)
  /\ (getCppVersion build = "C++17" <-> cplusplus build = 201703)
  /\ (getCppVersion build = "C++14" <-> cplusplus build = 201402)
  /\ (getCppVersion build = "C++11" <-> cplusplus build = 201103)
  /\ (getCppVersion build = "C++98" <-> cplusplus build = 199711)
  /\ (getCppVersion build = "C++ unknown"
      <-> cplusplus build < 201703 /\ cplusplus build <> 201402
          /\ cplusplus build <> 201103 /\ cplusplus build <> 199711).
Proof.
  unfold getCppVersion.
  destruct (Z.ltb_spec 201703 (cplusplus build)) as [H0 | H0].
  { repeat split; intros; try discriminate; try lia. }
  destruct (Z.eqb_spec (cplusplus build) 201703) as [H1 | H1].
  { repeat split; intros; try discriminate; try lia. }
  destruct (Z.eqb_spec (cplusplus build) 201402) as [H2 | H2].
  { repeat split; intros; try discriminate; try lia. }
  destruct (Z.eqb_spec (cplusplus build) 201103) as [H3 | H3].
  { repeat split; intros; try discriminate; try lia. }
  destruct (Z.eqb_spec (cplusplus build) 199711) as [H4 | H4].
  { repeat split; intros; try discriminate; try lia. }
  repeat split; intros; try discriminate; try lia.
Qed.

(** ** What the interleaving cannot change *)

(** X15.  The two threads share the process, yet nothing the main thread
    does reaches the loader: under every schedule, what the dispatcher
    thread has done so far is the beginning of what [mainLoader] does when
    it runs alone after the submission of the task, operation for
    operation. *)
Theorem loader_is_the_same_under_every_schedule build env fs sched :
  exists rest,
    history DispatcherThread (snd (loaded env build fs))
    = history DispatcherThread (world (sys_run build env sched (power_on build fs)))
      ++ rest.
Proof.
  destruct (sys_run_on_script build env fs sched _ (power_on_on_script build env fs))
    as [_ [(_ & Hh & _) | (_ & _ & _ & rest & Hscript & _)]].
  - rewrite Hh. eexists. reflexivity.
  - exists rest. rewrite sequential_script. exact Hscript.
Qed.

(** X16.  Under every schedule the dispatcher thread has called
    [g_loaderSignal.notify_all()] at most once. *)
Theorem at_most_one_notification_under_every_schedule build env fs sched :
  (notify_count
     (history DispatcherThread (world (sys_run build env sched (power_on build fs))))
   <= 1)%nat.
Proof.
  destruct (sys_run_on_script build env fs sched _ (power_on_on_script build env fs))
    as [_ [(_ & Hh & _) | (_ & _ & _ & rest & Hscript & _)]].
  - rewrite Hh. cbn [notify_count]. lia.
  - pose proof (sequential_notifies_once build env fs) as H.
    rewrite sequential_script, Hscript, notify_count_app in H. lia.
Qed.

